(** * Caladrius: the Heron topology graph builder

    A shallow embedding of [graph/heron/heron_graph_builder.py].  The builder
    reads a logical and a physical plan of a Heron topology and issues a fixed
    sequence of Gremlin traversals that add vertices and edges to a remote
    property graph.

    Modelling choices
    - Python [str] values are byte strings ([string]), text outside ASCII
      by its UTF-8 bytes; Python [int] is [Z].  The builtin [int()] is
      modelled on ASCII text.
    - A plan dictionary that is indexed by a variable key (component names,
      instance names, stream manager names) is an association list in
      insertion order, which is the order Python iterates it in.  A dictionary
      that is used as a struct (fixed keys) is a record.
    - The graph database is a pair of lists, in creation order.  A vertex
      handle is the position of the vertex in the list, so handles are unique
      by construction.  Remote failures of the database are not modelled: a
      traversal only fails when Gremlin itself rejects it.
    - The builder threads the graph through every call and may raise: its
      monad is state plus exceptions, and the state reached when an exception
      is raised is kept, as there is no transaction around the traversals. *)

From stdpp Require Import base strings list gmap.
From Stdlib Require Import Ascii ZArith Lia.

Open Scope string_scope.
Open Scope Z_scope.
Open Scope list_scope.

(** ** Python values and exceptions *)

Inductive value : Type :=
| VStr (s : string)
| VInt (n : Z).

Global Instance value_eq_dec : EqDecision value.
Proof. solve_decision. Defined.

Inductive exn : Type :=
| KeyError (key : string)        (* subscript of a dict with a missing key *)
| IndexError                     (* subscript of a list out of range *)
| ValueError (literal : string)  (* int() of a literal that is not a number *)
| LookupError                    (* the traversal given to to() is empty *)
| ParseError (token : string)    (* raised by parse_instance_name *)
| PlanFetchError (msg : string). (* raised by the tracker client *)

Global Instance exn_eq_dec : EqDecision exn.
Proof. solve_decision. Defined.

(** ** The builtins the builder calls *)

Module Py.

(** [d[k]] on a dictionary. *)
Fixpoint getitem {A : Type} (d : list (string * A)) (k : string) : exn + A :=
  match d with
  | [] => inl (KeyError k)
  | (k', a) :: d' => if decide (k' = k) then inr a else getitem d' k
  end.

(** [d.values()] and the keys a [for k in d] loop visits. *)
Definition values {A : Type} (d : list (string * A)) : list A := map snd d.
Definition keys {A : Type} (d : list (string * A)) : list string := map fst d.

(** [s.split(sep)] for a separator of one character. *)
Fixpoint split (sep : ascii) (s : string) : list string :=
  match s with
  | EmptyString => [EmptyString]
  | String c r =>
      if decide (c = sep) then EmptyString :: split sep r
      else match split sep r with
           | h :: t => String c h :: t
           | [] => [String c EmptyString]
           end
  end.

(** [l[i]] on a list. *)
Definition index {A : Type} (l : list A) (i : nat) : exn + A :=
  match l !! i with
  | Some a => inr a
  | None => inl IndexError
  end.


(** [int(s)] in base ten on ASCII text, after [PyLong_FromString]: blanks,
    an optional sign, digits with single underscores between them, blanks.
    Text with a character outside ASCII is first translated by the builtin,
    Unicode blanks and decimal digits becoming their ASCII counterparts;
    that translation is not modelled, so that [int] below is the builtin
    where [isascii] holds, and what is stated of an error of [int] is stated
    for such text. *)
Definition isspace (c : ascii) : bool :=
  let n := N_of_ascii c in
  (n =? 32)%N || ((9 <=? n)%N && (n <=? 13)%N).

Definition digit (c : ascii) : option Z :=
  let n := Z.of_N (N_of_ascii c) in
  if (48 <=? n) && (n <=? 57) then Some (n - 48) else None.

Fixpoint skip_blanks (s : string) : string :=
  match s with
  | String c r => if isspace c then skip_blanks r else s
  | EmptyString => s
  end.

Fixpoint scan_digits (prev_underscore : bool) (acc : Z) (s : string)
  : option (Z * string) :=
  match s with
  | String c r =>
      match digit c with
      | Some d => scan_digits false (acc * 10 + d) r
      | None =>
          if decide (c = "_"%char)
          then if prev_underscore then None else scan_digits true acc r
          else if prev_underscore then None else Some (acc, s)
      end
  | EmptyString => if prev_underscore then None else Some (acc, s)
  end.

Definition int_unsigned (s : string) : option Z :=
  match s with
  | String c r =>
      match digit c with
      | Some d =>
          match scan_digits false d r with
          | Some (n, rest) =>
              match skip_blanks rest with
              | EmptyString => Some n
              | String _ _ => None
              end
          | None => None
          end
      | None => None
      end
  | EmptyString => None
  end.

Definition int (s : string) : exn + Z :=
  let body := skip_blanks s in
  let r :=
    match body with
    | String c t =>
        if decide (c = "+"%char) then int_unsigned t
        else if decide (c = "-"%char) then Z.opp <$> int_unsigned t
        else int_unsigned body
    | EmptyString => None
    end in
  match r with
  | Some n => inr n
  | None => inl (ValueError s)
  end.

End Py.

(** ** The plans returned by the Heron tracker *)

(** An entry of [physical_plan["stmgrs"]]. *)
Record StreamManager : Type := {
  sm_id : string;
  sm_host : value;
  sm_port : value;
  sm_shell_port : value
}.

(** An entry of [physical_plan["instances"]]; only [stmgrId] is read. *)
Record InstanceInfo : Type := { stmgrId : string }.

Record PhysicalPlan : Type := {
  pp_stmgrs : list (string * StreamManager);
  pp_spouts : list (string * list string);
  pp_bolts : list (string * list string);
  pp_instances : list (string * InstanceInfo)
}.

(** An entry of [logical_plan["spouts"]]. *)
Record SpoutData : Type := { spout_type : value; spout_source : value }.

(** An element of [logical_plan["bolts"][name]["inputs"]]. *)
Record InputStream : Type := {
  component_name : string;
  stream_name : value;
  grouping : value
}.

Record BoltData : Type := { inputs : list InputStream }.

Record LogicalPlan : Type := {
  lp_spouts : list (string * SpoutData);
  lp_bolts : list (string * BoltData)
}.

(** What [parse_instance_name] returns; only these two keys are read. *)
Record Instance : Type := { container : Z; task_id : Z }.

(** ** The property graph *)

Record Vertex : Type := { v_label : string; v_props : gmap string value }.

Record Edge : Type := {
  e_label : string;
  e_out : nat;      (* handle of the vertex the edge leaves *)
  e_in : nat;       (* handle of the vertex the edge enters *)
  e_props : gmap string value
}.

Record Graph : Type := { vertices : list Vertex; edges : list Edge }.

Definition empty_graph : Graph := {| vertices := []; edges := [] |}.

(** ** The builder monad: graph state and exceptions *)

Definition M (A : Type) : Type := Graph -> Graph * (exn + A).

Definition ret {A : Type} (a : A) : M A := fun g => (g, inr a).

Definition raise {A : Type} (e : exn) : M A := fun g => (g, inl e).

Definition bind {A B : Type} (m : M A) (k : A -> M B) : M B :=
  fun g =>
    match m g with
    | (g', inr a) => k a g'
    | (g', inl e) => (g', inl e)
    end.

(** A pure computation that may raise. *)
Definition lift {A : Type} (r : exn + A) : M A :=
  fun g => (g, r).

Notation "x <- m ;; k" := (bind m (fun x => k))
  (at level 100, m at next level, right associativity).
Notation "m ;;; k" := (bind m (fun _ => k))
  (at level 100, right associativity).

(** [for x in xs: body]. *)
Fixpoint for_each {A : Type} (xs : list A) (body : A -> M unit) : M unit :=
  match xs with
  | [] => ret tt
  | x :: rest => body x ;;; for_each rest body
  end.

(** ** The Gremlin steps the builder uses *)

Module Gremlin.

(** A vertex traversal [g.V()...]: the filter accumulated so far. *)
Definition Traversal : Type := Vertex -> bool.

Definition V : Traversal := fun _ => true.

Definition has (k : string) (v : value) (t : Traversal) : Traversal :=
  fun x => t x && bool_decide (v_props x !! k = Some v).

Definition hasLabel (l : string) (t : Traversal) : Traversal :=
  fun x => t x && bool_decide (v_label x = l).

Definition hasLabel_within (ls : list string) (t : Traversal) : Traversal :=
  fun x => t x && bool_decide (v_label x ∈ ls).

(** Handles of the vertices of [vs] that pass [t], the first vertex of [vs]
    having handle [i]. *)
Fixpoint select (t : Traversal) (i : nat) (vs : list Vertex) : list nat :=
  match vs with
  | [] => []
  | x :: rest =>
      if t x then i :: select t (S i) rest else select t (S i) rest
  end.

Definition matching (t : Traversal) (g : Graph) : list nat :=
  select t 0 (vertices g).

(** [t.toList()]. *)
Definition toList (t : Traversal) : M (list nat) :=
  fun g => (g, inr (matching t g)).

(** [g.addV(label)], [.property(k, v)] and [.next()]. *)
Definition addV (l : string) : Vertex := {| v_label := l; v_props := ∅ |}.

Definition property (k : string) (v : value) (x : Vertex) : Vertex :=
  {| v_label := v_label x; v_props := <[k := v]> (v_props x) |}.

Definition next (x : Vertex) : M nat :=
  fun g =>
    ({| vertices := vertices g ++ [x]; edges := edges g |},
     inr (length (vertices g))).

(** [g.V(src).addE(label)], [.property(k, v)], [.to(...)] and [.next()]. *)
Record EdgeStep : Type := {
  es_from : nat;
  es_label : string;
  es_props : gmap string value
}.

Definition addE (src : nat) (l : string) : EdgeStep :=
  {| es_from := src; es_label := l; es_props := ∅ |}.

Definition eproperty (k : string) (v : value) (s : EdgeStep) : EdgeStep :=
  {| es_from := es_from s; es_label := es_label s;
     es_props := <[k := v]> (es_props s) |}.

Definition mk_edge (s : EdgeStep) (dst : nat) : Edge :=
  {| e_label := es_label s; e_out := es_from s; e_in := dst;
     e_props := es_props s |}.

(** [.to(vertex).next()]. *)
Definition to_vertex (dst : nat) (s : EdgeStep) : M unit :=
  fun g =>
    ({| vertices := vertices g; edges := edges g ++ [mk_edge s dst] |},
     inr tt).

(** [.to(traversal).next()]: the edge enters the first vertex the inner
    traversal yields; the step is rejected when it yields none. *)
Definition to_traversal (t : Traversal) (s : EdgeStep) : M unit :=
  fun g =>
    match matching t g with
    | dst :: _ => to_vertex dst s g
    | [] => (g, inl LookupError)
    end.

(** [t.as_("source").out(label).as_("destination")
      .select("source", "destination").toList()]. *)
Definition out_pairs (t : Traversal) (l : string) : M (list (nat * nat)) :=
  fun g =>
    (g, inr (flat_map
               (fun src =>
                  map (fun e => (src, e_in e))
                      (filter (fun e => e_out e = src ∧ e_label e = l)
                              (edges g)))
               (matching t g))).

End Gremlin.

(** ** HeronGraphBuilder *)

Import Gremlin.

Notation "x |> f" := (f x) (at level 45, left associativity, only parsing).

(** [int(stream_manager["id"].split("-")[1])]: the container a stream
    manager is responsible for, read off its id. *)
Definition container_index (stream_manager_id : string) : exn + Z :=
  match Py.index (Py.split "-" stream_manager_id) 1 with
  | inr part => Py.int part
  | inl e => inl e
  end.

Section HeronGraphBuilder.

(** [heron_tracker] is imported by the builder; its three functions are
    taken as they are called. *)
Variable parse_instance_name : string -> exn + Instance.
Variable get_logical_plan :
  string -> string -> string -> string -> exn + LogicalPlan.
Variable get_physical_plan :
  string -> string -> string -> string -> exn + PhysicalPlan.

(** [self.tracker_url], set from the configuration by [__init__]. *)
Variable tracker_url : string.

Definition _create_stream_managers (topology_id topology_ref : string)
    (physical_plan : PhysicalPlan) : M unit :=
  for_each (Py.values (pp_stmgrs physical_plan)) (fun stream_manager =>
    strmg <- (addV "stream_manager"
              |> property "id" (VStr (sm_id stream_manager))
              |> property "host" (sm_host stream_manager)
              |> property "port" (sm_port stream_manager)
              |> property "shell_port" (sm_shell_port stream_manager)
              |> property "topology_id" (VStr topology_id)
              |> property "topology_ref" (VStr topology_ref)
              |> next) ;;
    container <- lift (container_index (sm_id stream_manager)) ;;
    cont <- (addV "container"
             |> property "id" (VInt container)
             |> property "topology_id" (VStr topology_id)
             |> property "topology_ref" (VStr topology_ref)
             |> next) ;;
    (addE strmg "is_within" |> to_vertex cont)).

Definition _create_spouts (topology_id topology_ref : string)
    (physical_plan : PhysicalPlan) (logical_plan : LogicalPlan) : M unit :=
  let physical_spouts := pp_spouts physical_plan in
  for_each (lp_spouts logical_plan) (fun '(spout_name, spout_data) =>
    instance_names <- lift (Py.getitem physical_spouts spout_name) ;;
    for_each instance_names (fun instance_name =>
      instance <- lift (parse_instance_name instance_name) ;;
      info <- lift (Py.getitem (pp_instances physical_plan) instance_name) ;;
      let stream_manager_id := stmgrId info in
      spout <- (addV "spout"
                |> property "container" (VInt (container instance))
                |> property "task_id" (VInt (task_id instance))
                |> property "component" (VStr spout_name)
                |> property "stream_manager" (VStr stream_manager_id)
                |> property "spout_type" (spout_type spout_data)
                |> property "spout_source" (spout_source spout_data)
                |> property "topology_id" (VStr topology_id)
                |> property "topology_ref" (VStr topology_ref)
                |> next) ;;
      (addE spout "is_within"
       |> to_traversal (V |> hasLabel "container"
                          |> has "topology_id" (VStr topology_id)
                          |> has "topology_ref" (VStr topology_ref)
                          |> has "id" (VInt (container instance)))))).

Definition _create_bolts (topology_id topology_ref : string)
    (physical_plan : PhysicalPlan) (logical_plan : LogicalPlan) : M unit :=
  let physical_bolts := pp_bolts physical_plan in
  for_each (Py.keys (lp_bolts logical_plan)) (fun bolt_name =>
    instance_names <- lift (Py.getitem physical_bolts bolt_name) ;;
    for_each instance_names (fun instance_name =>
      instance <- lift (parse_instance_name instance_name) ;;
      info <- lift (Py.getitem (pp_instances physical_plan) instance_name) ;;
      let stream_manager_id := stmgrId info in
      bolt <- (addV "bolt"
               |> property "container" (VInt (container instance))
               |> property "task_id" (VInt (task_id instance))
               |> property "component" (VStr bolt_name)
               |> property "stream_manager" (VStr stream_manager_id)
               |> property "topology_id" (VStr topology_id)
               |> property "topology_ref" (VStr topology_ref)
               |> next) ;;
      (addE bolt "is_within"
       |> to_traversal (V |> hasLabel "container"
                          |> has "topology_id" (VStr topology_id)
                          |> has "topology_ref" (VStr topology_ref)
                          |> has "id" (VInt (container instance)))))).

Definition _create_logical_connections (topology_id topology_ref : string)
    (logical_plan : LogicalPlan) : M unit :=
  for_each (lp_bolts logical_plan) (fun '(bolt_name, bolt_data) =>
    destination_instances <-
      (V |> has "topology_id" (VStr topology_id)
         |> has "topology_ref" (VStr topology_ref)
         |> has "component" (VStr bolt_name)
         |> toList) ;;
    for_each (inputs bolt_data) (fun incoming_stream =>
      source_instances <-
        (V |> has "topology_id" (VStr topology_id)
           |> has "topology_ref" (VStr topology_ref)
           |> has "component" (VStr (component_name incoming_stream))
           |> toList) ;;
      for_each destination_instances (fun destination =>
        for_each source_instances (fun source =>
          (addE source "logically_connected"
           |> eproperty "stream_name" (stream_name incoming_stream)
           |> eproperty "grouping" (grouping incoming_stream)
           |> to_vertex destination))))).

(** The loop body only binds [source] and [destination]; the two steps
    that would follow are comments in the source. *)
Definition _create_physical_connections (topology_id topology_ref : string)
    (physical_plan : PhysicalPlan) (logical_plan : LogicalPlan) : M unit :=
  logical_pairs <-
    out_pairs (V |> has "topology_id" (VStr topology_id)
                 |> has "topology_ref" (VStr topology_ref)
                 |> hasLabel_within ["bolt"; "spout"])
              "logically_connected" ;;
  for_each logical_pairs (fun pair =>
    let source := fst pair in
    let destination := snd pair in
    ret tt).

Definition build_topology_graph (topology_id topology_ref : string)
    (cluster environ : string) : M unit :=
  logical_plan <-
    lift (get_logical_plan tracker_url cluster environ topology_id) ;;
  physical_plan <-
    lift (get_physical_plan tracker_url cluster environ topology_id) ;;
  _create_stream_managers topology_id topology_ref physical_plan ;;;
  _create_spouts topology_id topology_ref physical_plan logical_plan ;;;
  _create_bolts topology_id topology_ref physical_plan logical_plan ;;;
  _create_logical_connections topology_id topology_ref logical_plan.

End HeronGraphBuilder.

(** ** A concrete tracker, for running the builder *)

Module Scenario.

(** Modelled from the spec: [parse_instance_name] of
    [caladrius.graph.heron.heron_tracker], which the builder imports and
    whose source is not part of the sources at hand.  The spec says that it
    decodes the container index and the task index from the token and fails
    with a ParseError on missing separators or segments that are not
    numbers; the token is read here as
    [container_<container>_<component>_<task>]. *)
Definition parse_instance_name (token : string) : exn + Instance :=
  match Py.split "_" token with
  | _ :: c :: _ :: t :: rest =>
      match Py.int c, Py.int (List.last rest t) with
      | inr c', inr t' => inr {| container := c'; task_id := t' |}
      | _, _ => inl (ParseError token)
      end
  | _ => inl (ParseError token)
  end.

(** The end-to-end scenario: spout [S1], bolt [B1] reading stream [default]
    of [S1] with grouping [shuffle]; two instances of [S1] and one of [B1]
    under broker [stmgr-1] in container 1. *)
Definition logical_plan : LogicalPlan :=
  {| lp_spouts := [("S1", {| spout_type := VStr "default";
                             spout_source := VStr "NA" |})];
     lp_bolts := [("B1", {| inputs := [{| component_name := "S1";
                                          stream_name := VStr "default";
                                          grouping := VStr "shuffle" |}] |})]
  |}.

Definition physical_plan : PhysicalPlan :=
  {| pp_stmgrs := [("stmgr-1", {| sm_id := "stmgr-1";
                                  sm_host := VStr "host1";
                                  sm_port := VInt 9000;
                                  sm_shell_port := VInt 9001 |})];
     pp_spouts := [("S1", ["container_1_S1_1"; "container_1_S1_2"])];
     pp_bolts := [("B1", ["container_1_B1_3"])];
     pp_instances := [("container_1_S1_1", {| stmgrId := "stmgr-1" |});
                      ("container_1_S1_2", {| stmgrId := "stmgr-1" |});
                      ("container_1_B1_3", {| stmgrId := "stmgr-1" |})]
  |}.

Definition get_logical_plan (url cluster environ topology : string)
  : exn + LogicalPlan := inr logical_plan.

Definition get_physical_plan (url cluster environ topology : string)
  : exn + PhysicalPlan := inr physical_plan.

Definition build (topology_id topology_ref : string) : M unit :=
  build_topology_graph parse_instance_name get_logical_plan
    get_physical_plan "tracker:8888" topology_id topology_ref
    "cluster" "prod".

(** A configuration with the two addresses the builder reads. *)
Definition configuration : list (string * string) :=
  [("heron.tracker.url", "tracker:8888");
   ("caladrius.graph.db.url", "graphdb:8182")].

(** The physical plan with a spout component that the logical plan does
    not name. *)
Definition physical_plan_more : PhysicalPlan :=
  {| pp_stmgrs := pp_stmgrs physical_plan;
     pp_spouts := ("S9", ["container_1_S9_9"]) :: pp_spouts physical_plan;
     pp_bolts := pp_bolts physical_plan;
     pp_instances := pp_instances physical_plan |}.

(** The physical plan with one more spout component, [S9], that the
    logical plan does not name; its instance is in the instance map, under
    the stream manager of container 1. *)
Definition physical_plan_extra : PhysicalPlan :=
  {| pp_stmgrs := pp_stmgrs physical_plan;
     pp_spouts := pp_spouts physical_plan ++ [("S9", ["container_1_S9_9"])];
     pp_bolts := pp_bolts physical_plan;
     pp_instances := pp_instances physical_plan ++
                     [("container_1_S9_9", {| stmgrId := "stmgr-1" |})] |}.

Definition get_physical_plan_extra (url cluster environ topology : string)
  : exn + PhysicalPlan := inr physical_plan_extra.

(** The graph of the scenario once the stream managers are written. *)
Definition with_containers : Graph :=
  (_create_stream_managers "topo" "ref1" physical_plan empty_graph).1.

End Scenario.


(** ** A malformed physical plan *)

Module Malformed.

(** One broker entry, whose id has no separator; no component. *)
Definition physical_plan : PhysicalPlan :=
  {| pp_stmgrs := [("stmgr", {| sm_id := "stmgr";
                                sm_host := VStr "host1";
                                sm_port := VInt 9000;
                                sm_shell_port := VInt 9001 |})];
     pp_spouts := [];
     pp_bolts := [];
     pp_instances := [] |}.

(** The spout [S1] with an instance name that does not parse. *)
Definition unparsable_plan : PhysicalPlan :=
  {| pp_stmgrs := [];
     pp_spouts := [("S1", ["bogus"])];
     pp_bolts := [];
     pp_instances := [] |}.

End Malformed.

(** * Vocabulary of the statements *)

(** [grows_by g g' dv de]: [g'] is [g] followed by the vertices [dv] and the
    edges [de]. *)
Definition grows_by (g g' : Graph) (dv : list Vertex) (de : list Edge) : Prop :=
  vertices g' = vertices g ++ dv ∧ edges g' = edges g ++ de.

(** [creates PV PE m]: whatever the outcome of [m], it leaves what was in the
    graph in place, and what it has added satisfies [PV] and [PE]. *)
Definition creates {A : Type} (PV : Vertex → Prop) (PE : Edge → Prop)
    (m : M A) : Prop :=
  ∀ g, ∃ dv de, grows_by g (m g).1 dv de ∧ Forall PV dv ∧ Forall PE de.

(** The two tagging properties of a snapshot. *)
Definition tagged (topology_id topology_ref : string) (x : Vertex) : Prop :=
  v_props x !! "topology_id" = Some (VStr topology_id) ∧
  v_props x !! "topology_ref" = Some (VStr topology_ref).

Definition untagged (e : Edge) : Prop :=
  e_props e !! "topology_id" = None ∧ e_props e !! "topology_ref" = None.

(** The edges the builder writes: containment edges without properties and
    data-flow edges with a stream name and a grouping. *)
Definition builder_edge (e : Edge) : Prop :=
  (e_label e = "is_within" ∧ e_props e = ∅) ∨
  (e_label e = "logically_connected" ∧
   ∃ s q, e_props e = <["grouping" := q]> (<["stream_name" := s]> ∅)).

(** The vertices the builder writes. *)
Definition builder_vertex (topology_id topology_ref : string) (x : Vertex)
  : Prop :=
  tagged topology_id topology_ref x ∧
  v_label x ∈ ["stream_manager"; "container"; "spout"; "bolt"].

(** Number of vertices, resp. edges, with a given label. *)
Definition count_vertices (l : string) (vs : list Vertex) : nat :=
  length (filter (λ x, v_label x = l) vs).

Definition count_edges (l : string) (es : list Edge) : nat :=
  length (filter (λ e, e_label e = l) es).

(** [g] with the edges [es] added. *)
Definition add_edges (g : Graph) (es : list Edge) : Graph :=
  {| vertices := vertices g; edges := edges g ++ es |}.

(** The data-flow edge of a stream between two instances. *)
Definition logical_edge (stream : InputStream) (source destination : nat)
  : Edge :=
  {| e_label := "logically_connected";
     e_out := source;
     e_in := destination;
     e_props := <["grouping" := grouping stream]>
                  (<["stream_name" := stream_name stream]> ∅) |}.

(** The instance vertices of a component in a snapshot: the query of
    [_create_logical_connections]. *)
Definition instances_of (topology_id topology_ref component : string)
    (g : Graph) : list nat :=
  matching (V |> has "topology_id" (VStr topology_id)
              |> has "topology_ref" (VStr topology_ref)
              |> has "component" (VStr component)) g.

(** The edges [_create_logical_connections] adds for one declared stream:
    for each destination, for each source, one edge. *)
Definition stream_edges (topology_id topology_ref : string) (g : Graph)
    (entry : string * InputStream) : list Edge :=
  instances_of topology_id topology_ref entry.1 g ≫= λ destination,
    instances_of topology_id topology_ref (component_name entry.2) g
    ≫= λ source, [logical_edge entry.2 source destination].

(** The input streams a logical plan declares, each with the bolt that
    declares it, in the order the builder visits them. *)
Definition declared_streams (logical_plan : LogicalPlan)
  : list (string * InputStream) :=
  lp_bolts logical_plan ≫= λ '(bolt_name, bolt_data),
    pair bolt_name <$> inputs bolt_data.


(** The containment edge between two vertices. *)
Definition is_within_edge (source destination : nat) : Edge :=
  {| e_label := "is_within"; e_out := source; e_in := destination;
     e_props := ∅ |}.

(** The stream managers of a plan whose id yields a container index. *)
Definition decodable (stream_manager : StreamManager) : bool :=
  match container_index (sm_id stream_manager) with
  | inr _ => true
  | inl _ => false
  end.

Definition count_vertices_tagged (l topology_id topology_ref : string)
    (vs : list Vertex) : nat :=
  length (filter (λ x, v_label x = l ∧ tagged topology_id topology_ref x) vs).

(** The plan with other stream managers. *)
Definition with_stmgrs (pp : PhysicalPlan)
    (sms : list (string * StreamManager)) : PhysicalPlan :=
  {| pp_stmgrs := sms; pp_spouts := pp_spouts pp; pp_bolts := pp_bolts pp;
     pp_instances := pp_instances pp |}.

(** Strings: occurrence of a character, a test on all characters, the
    characters [int] accepts, and the value of a string of digits. *)
Fixpoint occurs (c : ascii) (s : string) : bool :=
  match s with
  | EmptyString => false
  | String c' r => bool_decide (c' = c) || occurs c r
  end.





(** The query for the container vertex of an instance. *)
Definition container_query (topology_id topology_ref : string) (c : Z)
  : Traversal :=
  V |> hasLabel "container"
    |> has "topology_id" (VStr topology_id)
    |> has "topology_ref" (VStr topology_ref)
    |> has "id" (VInt c).

(** The vertices written for a spout and for a bolt instance. *)
Definition spout_vertex (topology_id topology_ref spout_name : string)
    (spout_data : SpoutData) (instance : Instance) (info : InstanceInfo)
  : Vertex :=
  addV "spout"
  |> property "container" (VInt (container instance))
  |> property "task_id" (VInt (task_id instance))
  |> property "component" (VStr spout_name)
  |> property "stream_manager" (VStr (stmgrId info))
  |> property "spout_type" (spout_type spout_data)
  |> property "spout_source" (spout_source spout_data)
  |> property "topology_id" (VStr topology_id)
  |> property "topology_ref" (VStr topology_ref).

Definition bolt_vertex (topology_id topology_ref bolt_name : string)
    (bolt_data : BoltData) (instance : Instance) (info : InstanceInfo)
  : Vertex :=
  addV "bolt"
  |> property "container" (VInt (container instance))
  |> property "task_id" (VInt (task_id instance))
  |> property "component" (VStr bolt_name)
  |> property "stream_manager" (VStr (stmgrId info))
  |> property "topology_id" (VStr topology_id)
  |> property "topology_ref" (VStr topology_ref).

(** The shape [_create_spouts] and [_create_bolts] share: for each component,
    for each instance assigned to it, parse the name, look the instance up,
    add its vertex and connect it to its container.  [mk] is the vertex. *)
Section InstanceLoop.

Context {D : Type}.
Context (parse : string → exn + Instance).
Context (mk : string → D → Instance → InstanceInfo → Vertex).
Context (topology_id topology_ref : string) (physical_plan : PhysicalPlan).
Context (physical : list (string * list string)).

Definition instance_body (name : string) (data : D) (instance_name : string)
  : M unit :=
  instance <- lift (parse instance_name) ;;
  info <- lift (Py.getitem (pp_instances physical_plan) instance_name) ;;
  x <- next (mk name data instance info) ;;
  (addE x "is_within"
   |> to_traversal (container_query topology_id topology_ref
                      (container instance))).

Definition component_body (component : string * D) : M unit :=
  instance_names <- lift (Py.getitem physical component.1) ;;
  for_each instance_names (instance_body component.1 component.2).

Definition instance_loop (components : list (string * D)) : M unit :=
  for_each components component_body.

(** An instance the loop can process in the graph [g]: its name parses, the
    plan has an entry for it, and [g] has a container vertex for it. *)
Definition instance_ready (g : Graph) (instance_name : string) : bool :=
  match parse instance_name,
        Py.getitem (pp_instances physical_plan) instance_name with
  | inr instance, inr _ =>
      bool_decide (matching (container_query topology_id topology_ref
                               (container instance)) g ≠ [])
  | _, _ => false
  end.

Definition component_ready (g : Graph) (component : string * D) : bool :=
  match Py.getitem physical component.1 with
  | inr instance_names => forallb (instance_ready g) instance_names
  | inl _ => false
  end.

(** The instances the loop visits, with their component, in order. *)
Definition assigned (components : list (string * D))
  : list (string * D * string) :=
  components ≫= λ component,
    match Py.getitem physical component.1 with
    | inr instance_names => pair component <$> instance_names
    | inl _ => []
    end.

(** [written g0 n work dv de]: [dv] and [de] hold, position by position, the
    vertex of each instance of [work] and its edge to the first container
    vertex that [g0] has for it, the first vertex of [dv] having handle [n]. *)
Definition written (g0 : Graph) (n : nat) (work : list (string * D * string))
    (dv : list Vertex) (de : list Edge) : Prop :=
  length dv = length work ∧
  length de = length work ∧
  ∀ i name data instance_name,
    work !! i = Some (name, data, instance_name) →
    ∃ instance info h,
      parse instance_name = inr instance ∧
      Py.getitem (pp_instances physical_plan) instance_name = inr info ∧
      head (matching (container_query topology_id topology_ref
                        (container instance)) g0) = Some h ∧
      dv !! i = Some (mk name data instance info) ∧
      de !! i = Some (is_within_edge (n + i) h).

End InstanceLoop.

(** The vertex of an instance of [component] and the vertex of a container,
    by their label and properties. *)
Definition instance_vertex (label topology_id topology_ref component : string)
    (instance : Instance) (info : InstanceInfo) (x : Vertex) : Prop :=
  v_label x = label ∧
  v_props x !! "container" = Some (VInt (container instance)) ∧
  v_props x !! "task_id" = Some (VInt (task_id instance)) ∧
  v_props x !! "component" = Some (VStr component) ∧
  v_props x !! "stream_manager" = Some (VStr (stmgrId info)) ∧
  tagged topology_id topology_ref x.

Definition container_vertex (topology_id topology_ref : string) (c : Z)
    (k : Vertex) : Prop :=
  v_label k = "container" ∧
  v_props k !! "id" = Some (VInt c) ∧
  tagged topology_id topology_ref k.

(** [instances_written parse label tid tref pp g g' work]: [g'] is [g] with,
    for the instance at each position of [work], one vertex that carries the
    decoded placement and the stream manager of the instance, and one
    [is_within] edge from that vertex to a container vertex of the snapshot
    whose [id] is the decoded container. *)
Definition instances_written {D : Type} (parse : string → exn + Instance)
    (label topology_id topology_ref : string) (physical_plan : PhysicalPlan)
    (g g' : Graph) (work : list (string * D * string)) : Prop :=
  ∃ dv de,
    grows_by g g' dv de ∧
    length dv = length work ∧
    length de = length work ∧
    ∀ i name data instance_name,
      work !! i = Some (name, data, instance_name) →
      ∃ instance info x c k,
        parse instance_name = inr instance ∧
        Py.getitem (pp_instances physical_plan) instance_name = inr info ∧
        dv !! i = Some x ∧
        instance_vertex label topology_id topology_ref name instance info x ∧
        de !! i = Some {| e_label := "is_within";
                          e_out := length (vertices g) + i;
                          e_in := c;
                          e_props := ∅ |} ∧
        vertices g !! c = Some k ∧
        container_vertex topology_id topology_ref (container instance) k.

(** The steps of a build, in order, once the plans are fetched. *)
Definition build_steps (parse : string → exn + Instance)
    (topology_id topology_ref : string) (physical_plan : PhysicalPlan)
    (logical_plan : LogicalPlan) : list (M unit) :=
  [ _create_stream_managers topology_id topology_ref physical_plan;
    _create_spouts parse topology_id topology_ref physical_plan logical_plan;
    _create_bolts parse topology_id topology_ref physical_plan logical_plan;
    _create_logical_connections topology_id topology_ref logical_plan ].

(** Plans that fit together: every stream manager id yields a container
    index, every component of the logical plan is listed in the physical
    plan, and every instance of these has a name that parses, an entry in the
    instance map and a stream manager for its container. *)
Definition has_container (physical_plan : PhysicalPlan) (c : Z) : bool :=
  existsb (λ sm, bool_decide (container_index (sm_id sm) = inr c))
          (Py.values (pp_stmgrs physical_plan)).

Definition instance_placed (parse : string → exn + Instance)
    (physical_plan : PhysicalPlan) (instance_name : string) : bool :=
  match parse instance_name,
        Py.getitem (pp_instances physical_plan) instance_name with
  | inr instance, inr _ => has_container physical_plan (container instance)
  | _, _ => false
  end.

Definition component_placed {D : Type} (parse : string → exn + Instance)
    (physical_plan : PhysicalPlan) (physical : list (string * list string))
    (component : string * D) : bool :=
  match Py.getitem physical component.1 with
  | inr instance_names =>
      forallb (instance_placed parse physical_plan) instance_names
  | inl _ => false
  end.

Definition plans_consistent (parse : string → exn + Instance)
    (physical_plan : PhysicalPlan) (logical_plan : LogicalPlan) : bool :=
  forallb decodable (Py.values (pp_stmgrs physical_plan))
  && forallb (component_placed parse physical_plan (pp_spouts physical_plan))
             (lp_spouts logical_plan)
  && forallb (component_placed parse physical_plan (pp_bolts physical_plan))
             (lp_bolts logical_plan).

(** The graph has a container vertex of the snapshot for every container of
    the physical plan. *)
Definition containers_present (topology_id topology_ref : string)
    (physical_plan : PhysicalPlan) (g : Graph) : Prop :=
  ∀ c, has_container physical_plan c = true →
       matching (container_query topology_id topology_ref c) g ≠ [].

(** [reaches parse tid tref pp physical g components name data tok before]:
    in the graph [g], the instance loop over [components] gets to the
    instance [tok] of the component [name], the components before [name] and
    the instances of [name] before [tok] being ready; [before] lists the
    instances it has processed by then.  [reaches_component] is the same for
    the moment the loop gets to the component [name]. *)
Definition reaches {D : Type} (parse : string → exn + Instance)
    (topology_id topology_ref : string) (physical_plan : PhysicalPlan)
    (physical : list (string * list string)) (g : Graph)
    (components : list (string * D)) (name : string) (data : D)
    (instance_name : string) (before : list (string * D * string)) : Prop :=
  ∃ pre post names_before names_after,
    components = pre ++ (name, data) :: post ∧
    forallb (component_ready parse topology_id topology_ref physical_plan
               physical g) pre = true ∧
    Py.getitem physical name =
      inr (names_before ++ instance_name :: names_after) ∧
    forallb (instance_ready parse topology_id topology_ref physical_plan g)
      names_before = true ∧
    before = assigned physical pre ++ (pair (name, data) <$> names_before).

Definition reaches_component {D : Type} (parse : string → exn + Instance)
    (topology_id topology_ref : string) (physical_plan : PhysicalPlan)
    (physical : list (string * list string)) (g : Graph)
    (components : list (string * D)) (name : string)
    (before : list (string * D * string)) : Prop :=
  ∃ pre data post,
    components = pre ++ (name, data) :: post ∧
    forallb (component_ready parse topology_id topology_ref physical_plan
               physical g) pre = true ∧
    before = assigned physical pre.

(** A logical plan that names a component the physical plan does not list,
    or a listed instance the instance map has no entry for. *)
Definition plan_gap {D : Type} (physical_plan : PhysicalPlan)
    (physical : list (string * list string))
    (components : list (string * D)) : Prop :=
  (∃ name, name ∈ Py.keys components ∧ name ∉ Py.keys physical) ∨
  (∃ name instance_names instance_name,
     name ∈ Py.keys components ∧
     Py.getitem physical name = inr instance_names ∧
     instance_name ∈ instance_names ∧
     instance_name ∉ Py.keys (pp_instances physical_plan)).

(** * The rest of the builder *)

(** ** Construction

    [__init__] reads the two addresses from the configuration and calls
    [connect], which opens the remote traversal at the address of the graph
    database.  The connection is modelled by the address it is opened at; the
    graph in the database is not touched. *)
Record HeronGraphBuilder : Type := {
  self_config : list (string * string);
  self_tracker_url : string;
  self_graph_db_url : string;
  self_connection : string
}.

(** [f"ws://{self.graph_db_url}/gremlin"]. *)
Definition connect (graph_db_url : string) : string :=
  "ws://" +:+ graph_db_url +:+ "/gremlin".

Definition __init__ (config : list (string * string))
  : exn + HeronGraphBuilder :=
  match Py.getitem config "heron.tracker.url" with
  | inl e => inl e
  | inr tracker_url =>
      match Py.getitem config "caladrius.graph.db.url" with
      | inl e => inl e
      | inr graph_db_url =>
          inr {| self_config := config;
                 self_tracker_url := tracker_url;
                 self_graph_db_url := graph_db_url;
                 self_connection := connect graph_db_url |}
      end
  end.

(** ** Further vocabulary *)

(** Two vertices of one snapshot: the same tagging properties. *)
Definition same_snapshot (x y : Vertex) : Prop :=
  v_props x !! "topology_id" = v_props y !! "topology_id" ∧
  v_props x !! "topology_ref" = v_props y !! "topology_ref".

(** An edge of [g] whose two ends are vertices of [g], of one snapshot. *)
Definition edge_within (g : Graph) (e : Edge) : Prop :=
  ∃ x y,
    vertices g !! e_out e = Some x ∧ vertices g !! e_in e = Some y ∧
    same_snapshot x y.

Definition snapshots_apart (g : Graph) : Prop :=
  Forall (edge_within g) (edges g).

(** The handle [h] is a vertex of the snapshot in [g]. *)
Definition tagged_at (topology_id topology_ref : string) (g : Graph)
    (h : nat) : Prop :=
  ∃ x, vertices g !! h = Some x ∧ tagged topology_id topology_ref x.

(** The instances a plan assigns to the component [name]. *)
Definition assigned_to {D : Type} (name : string)
    (work : list (string * D * string)) : nat :=
  length (filter (λ w, w.1.1 = name) work).
(** * Reasoning about runs *)

(** ** Growth of the graph *)

Lemma grows_by_refl g : grows_by g g [] [].
Proof. split; by rewrite app_nil_r. Qed.

Lemma grows_by_trans g1 g2 g3 dv1 de1 dv2 de2 :
  grows_by g1 g2 dv1 de1 → grows_by g2 g3 dv2 de2 →
  grows_by g1 g3 (dv1 ++ dv2) (de1 ++ de2).
Proof.
  intros [Hv1 He1] [Hv2 He2]. split.
  - by rewrite Hv2, Hv1, <- app_assoc.
  - by rewrite He2, He1, <- app_assoc.
Qed.

(** ** The monad *)

Lemma bind_inr {A B} (m : M A) (k : A → M B) g g' a :
  m g = (g', inr a) → bind m k g = k a g'.
Proof. unfold bind. by intros ->. Qed.

Lemma bind_inl {A B} (m : M A) (k : A → M B) g g' e :
  m g = (g', inl e) → bind m k g = (g', inl e).
Proof. unfold bind. by intros ->. Qed.

Lemma bind_lift_inr {A B} (r : exn + A) (k : A → M B) g a :
  r = inr a → bind (lift r) k g = k a g.
Proof. by intros ->. Qed.

Lemma bind_lift_inl {A B} (r : exn + A) (k : A → M B) g e :
  r = inl e → bind (lift r) k g = (g, inl e).
Proof. by intros ->. Qed.

Lemma for_each_app {A} (xs ys : list A) (body : A → M unit) g :
  for_each (xs ++ ys) body g =
  bind (for_each xs body) (λ _, for_each ys body) g.
Proof.
  revert g. induction xs as [|x xs IH]; intros g; simpl; [done|].
  unfold bind in *. destruct (body x g) as [g1 [e|[]]]; [done|]. apply IH.
Qed.

Lemma for_each_ext {A} (xs : list A) (body body' : A → M unit) :
  (∀ x g, x ∈ xs → body x g = body' x g) →
  ∀ g, for_each xs body g = for_each xs body' g.
Proof.
  induction xs as [|x xs IH]; intros Hb g; simpl; [done|].
  unfold bind. rewrite Hb by left.
  destruct (body' x g) as [g1 [e|[]]]; [done|].
  apply IH. intros y g2 Hy. apply Hb. by right.
Qed.

(** ** Vertex queries *)

Lemma select_app t i vs ws :
  select t i (vs ++ ws) = select t i vs ++ select t (i + length vs) ws.
Proof.
  revert i. induction vs as [|x vs IH]; intros i; simpl.
  - by rewrite Nat.add_0_r.
  - rewrite IH. replace (S i + length vs)%nat with (i + S (length vs))%nat by lia.
    by destruct (t x).
Qed.

Lemma elem_of_select t i vs h :
  h ∈ select t i vs ↔
  (i ≤ h)%nat ∧ ∃ x, vs !! (h - i)%nat = Some x ∧ t x = true.
Proof.
  revert i. induction vs as [|x vs IH]; intros i; simpl.
  - split; [by intros ?%elem_of_nil|]. by intros (_ & y & Hy & _).
  - assert (h ∈ select t (S i) vs ↔
            (i ≤ h)%nat ∧ h ≠ i ∧ ∃ y, (x :: vs) !! (h - i)%nat = Some y ∧ t y = true)
      as Hrest.
    { rewrite IH. split.
      - intros (Hle & y & Hy & Ht). split; [lia|]. split; [lia|].
        exists y. split; [|done].
        replace (h - i)%nat with (S (h - S i)) by lia. done.
      - intros (Hle & Hne & y & Hy & Ht). split; [lia|].
        exists y. split; [|done].
        replace (h - i)%nat with (S (h - S i)) in Hy by lia. done. }
    destruct (t x) eqn:Htx.
    + rewrite elem_of_cons, Hrest. split.
      * intros [->|(? & ? & ?)]; [|done]. split; [lia|].
        exists x. by rewrite Nat.sub_diag.
      * intros (Hle & y & Hy & Ht).
        destruct (decide (h = i)) as [->|Hne]; [by left|right]. eauto.
    + rewrite Hrest. split; [intros (? & _ & ?); by split|].
      intros (Hle & y & Hy & Ht). split; [done|]. split; [|eauto].
      intros ->. rewrite Nat.sub_diag in Hy. simpl in Hy. congruence.
Qed.

Lemma elem_of_matching t g h :
  h ∈ matching t g ↔ ∃ x, vertices g !! h = Some x ∧ t x = true.
Proof.
  unfold matching. rewrite elem_of_select, Nat.sub_0_r. split.
  - by intros [_ ?].
  - intros ?. split; [lia|done].
Qed.

Lemma select_lower t i vs h : h ∈ select t i vs → (i ≤ h)%nat.
Proof. rewrite elem_of_select. by intros [? _]. Qed.

Lemma NoDup_select t i vs : NoDup (select t i vs).
Proof.
  revert i. induction vs as [|x vs IH]; intros i; simpl; [constructor|].
  destruct (t x); [|done]. constructor; [|done].
  intros Hin%select_lower. lia.
Qed.

Lemma NoDup_matching t g : NoDup (matching t g).
Proof. apply NoDup_select. Qed.

Lemma matching_same_vertices t g g' :
  vertices g' = vertices g → matching t g' = matching t g.
Proof. unfold matching. by intros ->. Qed.

(** ** What a computation adds to the graph *)

Section Creates.
Context (PV : Vertex → Prop) (PE : Edge → Prop).

Lemma creates_ret {A} (a : A) : creates PV PE (ret a).
Proof. intros g. exists [], []. split; [apply grows_by_refl|]. by split. Qed.

Lemma creates_lift {A} (r : exn + A) : creates PV PE (lift r).
Proof. intros g. exists [], []. split; [apply grows_by_refl|]. by split. Qed.

Lemma creates_bind {A B} (m : M A) (k : A → M B) :
  creates PV PE m → (∀ a, creates PV PE (k a)) → creates PV PE (bind m k).
Proof.
  intros Hm Hk g. destruct (Hm g) as (dv & de & Hg & Hv & He).
  unfold bind. destruct (m g) as [g1 [e|a]]; simpl in *.
  - by exists dv, de.
  - destruct (Hk a g1) as (dv' & de' & Hg' & Hv' & He').
    exists (dv ++ dv'), (de ++ de').
    split; [by eapply grows_by_trans|]. split; by apply Forall_app.
Qed.

Lemma creates_for_each {A} (xs : list A) (body : A → M unit) :
  (∀ x, creates PV PE (body x)) → creates PV PE (for_each xs body).
Proof.
  intros Hb. induction xs as [|x xs IH]; simpl.
  - apply creates_ret.
  - apply creates_bind; [apply Hb|]. by intros _.
Qed.

Lemma creates_next x : PV x → creates PV PE (next x).
Proof.
  intros Hx g. exists [x], []. split; [|by split; repeat constructor].
  split; simpl; [done|by rewrite app_nil_r].
Qed.

Lemma creates_to_vertex dst s :
  PE (mk_edge s dst) → creates PV PE (to_vertex dst s).
Proof.
  intros Hx g. exists [], [mk_edge s dst].
  split; [|by split; repeat constructor].
  split; simpl; [by rewrite app_nil_r|done].
Qed.

Lemma creates_to_traversal t s :
  (∀ dst, PE (mk_edge s dst)) → creates PV PE (to_traversal t s).
Proof.
  intros Hx g. unfold to_traversal.
  destruct (matching t g) as [|dst ?].
  - exists [], []. split; [apply grows_by_refl|]. by split.
  - by apply creates_to_vertex.
Qed.

Lemma creates_toList t : creates PV PE (toList t).
Proof. intros g. exists [], []. split; [apply grows_by_refl|]. by split. Qed.

Lemma creates_out_pairs t l : creates PV PE (out_pairs t l).
Proof. intros g. exists [], []. split; [apply grows_by_refl|]. by split. Qed.

End Creates.

Lemma creates_weaken {A} (PV PV' : Vertex → Prop) (PE PE' : Edge → Prop)
    (m : M A) :
  (∀ x, PV x → PV' x) → (∀ e, PE e → PE' e) →
  creates PV PE m → creates PV' PE' m.
Proof.
  intros HV HE Hm g. destruct (Hm g) as (dv & de & Hg & Hv & He).
  exists dv, de. split; [done|]. split; by eapply Forall_impl.
Qed.

Lemma creates_for_each_in {A} (PV : Vertex → Prop) (PE : Edge → Prop)
    (xs : list A) (body : A → M unit) :
  (∀ x, x ∈ xs → creates PV PE (body x)) → creates PV PE (for_each xs body).
Proof.
  induction xs as [|x xs IH]; intros Hb; simpl.
  - apply creates_ret.
  - apply creates_bind; [apply Hb; by left|]. intros _. apply IH.
    intros y Hy. apply Hb. by right.
Qed.

(** ** Dictionaries *)

Lemma getitem_absent {A} (d : list (string * A)) k :
  k ∉ Py.keys d → Py.getitem d k = inl (KeyError k).
Proof.
  induction d as [|[k' a] d IH]; simpl; [done|].
  intros Hk. apply not_elem_of_cons in Hk as [Hne Hk].
  rewrite decide_False by done. by apply IH.
Qed.

(** * Facts about the builder *)

(** Walks through a builder step, one Gremlin call at a time. *)
Ltac step_creates :=
  repeat first
    [ apply creates_for_each; intros ?
    | apply creates_bind; [|intros ?]
    | apply creates_lift
    | apply creates_ret
    | apply creates_toList
    | apply creates_out_pairs
    | match goal with
      | |- creates _ _ (let '(_, _) := ?p in _) => destruct p
      end ].

Ltac prop_lookup :=
  unfold property, eproperty, addV, addE, mk_edge; simpl;
  repeat first
    [ done
    | rewrite lookup_insert_eq
    | rewrite lookup_insert_ne by done
    | rewrite lookup_empty ].

Section BuilderFacts.

Context (parse_instance_name : string → exn + Instance).
Context (get_logical_plan : string → string → string → string → exn + LogicalPlan).
Context (get_physical_plan : string → string → string → string → exn + PhysicalPlan).
Context (tracker_url : string).

Abbreviation create_spouts := (_create_spouts parse_instance_name).
Abbreviation create_bolts := (_create_bolts parse_instance_name).
Abbreviation build :=
  (build_topology_graph parse_instance_name get_logical_plan
     get_physical_plan tracker_url).

Implicit Types (tid tref : string) (pp : PhysicalPlan) (lp : LogicalPlan).
Implicit Types (g : Graph).

Lemma builder_vertex_intro tid tref x :
  v_props x !! "topology_id" = Some (VStr tid) →
  v_props x !! "topology_ref" = Some (VStr tref) →
  v_label x ∈ ["stream_manager"; "container"; "spout"; "bolt"] →
  builder_vertex tid tref x.
Proof. by repeat split. Qed.

Lemma create_stream_managers_creates tid tref pp :
  creates (builder_vertex tid tref) builder_edge
    (_create_stream_managers tid tref pp).
Proof.
  unfold _create_stream_managers. step_creates.
  - apply creates_next, builder_vertex_intro; [prop_lookup..|set_solver].
  - apply creates_next, builder_vertex_intro; [prop_lookup..|set_solver].
  - apply creates_to_vertex. by left.
Qed.

Lemma create_spouts_creates tid tref pp lp :
  creates (builder_vertex tid tref) builder_edge
    (create_spouts tid tref pp lp).
Proof.
  unfold _create_spouts. step_creates.
  - apply creates_next, builder_vertex_intro; [prop_lookup..|set_solver].
  - apply creates_to_traversal. by left.
Qed.

Lemma create_bolts_creates tid tref pp lp :
  creates (builder_vertex tid tref) builder_edge
    (create_bolts tid tref pp lp).
Proof.
  unfold _create_bolts. step_creates.
  - apply creates_next, builder_vertex_intro; [prop_lookup..|set_solver].
  - apply creates_to_traversal. by left.
Qed.

(** The data-flow step and the unfinished physical step add no vertex. *)
Lemma create_logical_connections_creates tid tref lp :
  creates (λ _, False) builder_edge
    (_create_logical_connections tid tref lp).
Proof.
  unfold _create_logical_connections. step_creates.
  apply creates_to_vertex. right. split; [done|]. simpl. eauto.
Qed.

Lemma create_physical_connections_creates tid tref pp lp :
  creates (λ _, False) (λ _, False)
    (_create_physical_connections tid tref pp lp).
Proof. unfold _create_physical_connections. step_creates. Qed.

Lemma build_creates tid tref cluster environ :
  creates (builder_vertex tid tref) builder_edge
    (build tid tref cluster environ).
Proof.
  unfold build_topology_graph.
  apply creates_bind; [apply creates_lift|intros lp].
  apply creates_bind; [apply creates_lift|intros pp].
  apply creates_bind; [apply create_stream_managers_creates|intros _].
  apply creates_bind; [apply create_spouts_creates|intros _].
  apply creates_bind; [apply create_bolts_creates|intros _].
  eapply creates_weaken; [| |apply create_logical_connections_creates];
    [done|done].
Qed.

Lemma builder_edge_untagged e : builder_edge e → untagged e.
Proof.
  intros [[_ He]|(_ & s & q & He)]; unfold untagged; rewrite He; split;
    prop_lookup.
Qed.

Lemma for_each_skip {A} (xs : list A) g :
  for_each xs (λ _, ret tt) g = (g, inr tt).
Proof. induction xs as [|x xs IH]; simpl; [done|]. by unfold bind. Qed.

Lemma count_edges_app l es es' :
  count_edges l (es ++ es') = (count_edges l es + count_edges l es')%nat.
Proof. unfold count_edges. by rewrite filter_app, length_app. Qed.

Lemma count_edges_other l es :
  Forall (λ e, e_label e ≠ l) es → count_edges l es = 0%nat.
Proof.
  unfold count_edges. induction 1 as [|e es He _ IH]; [done|].
  by rewrite filter_cons_False.
Qed.

(** C2 (amended).  Whatever the outcome of [build_topology_graph], every
    vertex it has added carries [topology_id] and [topology_ref] with the
    values passed to the call; the edges it has added carry neither of the
    two properties. *)
Theorem build_tags_vertices_only tid tref cluster environ g :
  ∃ dv de,
    grows_by g (build tid tref cluster environ g).1 dv de ∧
    Forall (tagged tid tref) dv ∧ Forall untagged de.
Proof.
  destruct (build_creates tid tref cluster environ g)
    as (dv & de & Hg & Hv & He).
  exists dv, de. split; [done|]. split.
  - eapply Forall_impl; [exact Hv|]. by intros x [? _].
  - eapply Forall_impl; [exact He|]. apply builder_edge_untagged.
Qed.

(** C8.  Two builds of the same topology under different snapshot
    references: every vertex added by either build carries the
    [topology_ref] of its build, so a query that filters on one reference
    returns no vertex added by the build of the other reference. *)
Theorem snapshots_disjoint tid refA refB clusterA environA clusterB environB
    g0 (t : Traversal) (h : nat) :
  refA ≠ refB →
  let g1 := (build tid refA clusterA environA g0).1 in
  let g2 := (build tid refB clusterB environB g1).1 in
  (∃ dvA deA dvB deB,
     grows_by g0 g1 dvA deA ∧ grows_by g1 g2 dvB deB ∧
     Forall (λ x, v_props x !! "topology_ref" = Some (VStr refA)) dvA ∧
     Forall (λ x, v_props x !! "topology_ref" = Some (VStr refB)) dvB) ∧
  (h ∈ matching (t |> has "topology_ref" (VStr refA)) g2 →
   ¬ (length (vertices g1) ≤ h < length (vertices g2))%nat) ∧
  (h ∈ matching (t |> has "topology_ref" (VStr refB)) g2 →
   ¬ (length (vertices g0) ≤ h < length (vertices g1))%nat).
Proof.
  intros Hne g1 g2.
  destruct (build_creates tid refA clusterA environA g0)
    as (dvA & deA & HgA & HvA & _).
  destruct (build_creates tid refB clusterB environB g1)
    as (dvB & deB & HgB & HvB & _).
  fold g1 in HgA. fold g2 in HgB.
  assert (Forall (λ x, v_props x !! "topology_ref" = Some (VStr refA)) dvA)
    as HA by (eapply Forall_impl; [exact HvA|]; by intros x [[_ ?] _]).
  assert (Forall (λ x, v_props x !! "topology_ref" = Some (VStr refB)) dvB)
    as HB by (eapply Forall_impl; [exact HvB|]; by intros x [[_ ?] _]).
  split; [by exists dvA, deA, dvB, deB|].
  destruct HgA as [HvA1 _], HgB as [HvB1 _].
  split.
  - intros (x & Hx & Ht)%elem_of_matching [Hlo Hhi].
    rewrite HvB1 in Hx. rewrite lookup_app_r in Hx by done.
    apply list_elem_of_lookup_2 in Hx.
    rewrite Forall_forall in HB. specialize (HB _ Hx).
    unfold has in Ht. apply andb_true_iff in Ht as [_ Ht].
    apply bool_decide_eq_true in Ht. congruence.
  - intros (x & Hx & Ht)%elem_of_matching [Hlo Hhi].
    rewrite HvB1 in Hx. rewrite lookup_app_l in Hx by done.
    rewrite HvA1 in Hx. rewrite lookup_app_r in Hx by done.
    apply list_elem_of_lookup_2 in Hx.
    rewrite Forall_forall in HA. specialize (HA _ Hx).
    unfold has in Ht. apply andb_true_iff in Ht as [_ Ht].
    apply bool_decide_eq_true in Ht. congruence.
Qed.

(** C9.  [_create_physical_connections] returns normally and leaves the
    graph as it found it, and a build adds no [physically_connected] edge:
    their number after a build is their number before it, which is zero
    for a build into an empty graph. *)
Theorem no_physical_connections tid tref cluster environ pp lp g :
  _create_physical_connections tid tref pp lp g = (g, inr tt) ∧
  count_edges "physically_connected"
    (edges (build tid tref cluster environ g).1) =
  count_edges "physically_connected" (edges g) ∧
  count_edges "physically_connected"
    (edges (build tid tref cluster environ empty_graph).1) = 0%nat.
Proof.
  assert (∀ g0, count_edges "physically_connected"
                  (edges (build tid tref cluster environ g0).1) =
                count_edges "physically_connected" (edges g0)) as Hcount.
  { intros g0. destruct (build_creates tid tref cluster environ g0)
      as (dv & de & [_ Hg] & _ & He).
    rewrite Hg, count_edges_app, (count_edges_other _ de); [lia|].
    eapply Forall_impl; [exact He|].
    intros e [[-> _]|[-> _]]; done. }
  split; [|split].
  - unfold _create_physical_connections, bind, out_pairs.
    apply for_each_skip.
  - apply Hcount.
  - by rewrite Hcount.
Qed.

(** ** Data-flow edges *)

Lemma add_edges_nil g : add_edges g [] = g.
Proof. destruct g. unfold add_edges. simpl. by rewrite app_nil_r. Qed.

Lemma add_edges_app g es es' :
  add_edges (add_edges g es) es' = add_edges g (es ++ es').
Proof. unfold add_edges. simpl. by rewrite app_assoc. Qed.

(** A loop whose body only adds edges, run on a graph with vertices [vs]. *)
Lemma for_each_add_edges {A} (vs : list Vertex) (xs : list A)
    (body : A → M unit) (f : A → list Edge) :
  (∀ x g, vertices g = vs → body x g = (add_edges g (f x), inr tt)) →
  ∀ g, vertices g = vs →
       for_each xs body g = (add_edges g (xs ≫= f), inr tt).
Proof.
  intros Hb. induction xs as [|x xs IH]; intros g Hg; simpl.
  - by rewrite add_edges_nil.
  - unfold bind. rewrite Hb, IH by done. by rewrite add_edges_app.
Qed.

Lemma instances_of_same_vertices tid tref name g g' :
  vertices g' = vertices g →
  instances_of tid tref name g' = instances_of tid tref name g.
Proof. apply matching_same_vertices. Qed.

Lemma create_logical_connections_edges tid tref lp g :
  _create_logical_connections tid tref lp g =
  (add_edges g (declared_streams lp ≫= stream_edges tid tref g), inr tt).
Proof.
  unfold _create_logical_connections, declared_streams.
  rewrite (for_each_add_edges (vertices g) _ _
    (λ '(bolt_name, bolt_data),
       inputs bolt_data ≫= λ stream,
         stream_edges tid tref g (bolt_name, stream))); [|clear|done].
  - f_equal. f_equal.
    induction (lp_bolts lp) as [|[bolt_name bolt_data] bs IH]; [done|].
    by rewrite !bind_cons, bind_app, IH, list_fmap_bind.
  - intros [bolt_name bolt_data] g1 Hg1. unfold bind, toList.
    apply (for_each_add_edges (vertices g)); [|done].
    intros stream g2 Hg2.
    fold (instances_of tid tref bolt_name g1).
    fold (instances_of tid tref (component_name stream) g2).
    rewrite (instances_of_same_vertices _ _ _ g g1) by done.
    rewrite (instances_of_same_vertices _ _ _ g g2) by done.
    apply (for_each_add_edges (vertices g)); [|done].
    intros destination g3 Hg3.
    by apply (for_each_add_edges (vertices g) _ _
      (λ source, [logical_edge stream source destination])).
Qed.

Lemma concat_fmap_bind {A B} (f : A → list B) (l : list A) :
  concat (f <$> l) = l ≫= f.
Proof.
  induction l as [|x l IH]; [done|].
  rewrite fmap_cons, bind_cons. cbn [concat]. by rewrite IH.
Qed.

Lemma length_bind_const {A B} (f : A → list B) (l : list A) (n : nat) :
  (∀ x, length (f x) = n) → length (l ≫= f) = (length l * n)%nat.
Proof.
  intros Hf. induction l as [|x l IH]; [done|].
  rewrite bind_cons, length_app, Hf, IH. simpl. lia.
Qed.

(** The edges of one declared stream are the cross product of the source
    and the destination instances, each pair once. *)
Lemma stream_edges_cross_product tid tref g bolt_name stream :
  let sources := instances_of tid tref (component_name stream) g in
  let destinations := instances_of tid tref bolt_name g in
  let block := stream_edges tid tref g (bolt_name, stream) in
  length block = (length sources * length destinations)%nat ∧
  NoDup block ∧
  ∀ e, e ∈ block ↔
       ∃ s d, s ∈ sources ∧ d ∈ destinations ∧ e = logical_edge stream s d.
Proof.
  intros sources destinations block. unfold block, stream_edges. simpl.
  fold sources destinations. split; [|split].
  - rewrite (length_bind_const _ _ (length sources)); [lia|].
    intros d. rewrite (length_bind_const _ _ 1%nat); [lia|done].
  - apply NoDup_bind; [| |apply NoDup_matching].
    + intros d1 d2 e _ _ (s1 & He1 & _)%list_elem_of_bind
        (s2 & He2 & _)%list_elem_of_bind.
      apply list_elem_of_singleton in He1, He2. subst e.
      by injection He2.
    + intros d _. apply NoDup_bind; [| |apply NoDup_matching].
      * intros s1 s2 e _ _ He1%list_elem_of_singleton
          He2%list_elem_of_singleton.
        subst e. by injection He2.
      * intros s _. apply NoDup_singleton.
  - intros e. rewrite list_elem_of_bind. split.
    + intros (d & (s & He & Hs)%list_elem_of_bind & Hd).
      apply list_elem_of_singleton in He. by exists s, d.
    + intros (s & d & Hs & Hd & ->). exists d. split; [|done].
      apply list_elem_of_bind. exists s. split; [|done].
      by apply list_elem_of_singleton.
Qed.

(** C1.  [_create_logical_connections] returns normally, adds no vertex,
    and adds, for every input stream a bolt declares and in the order of the
    declarations, one block of [logically_connected] edges.  Where the
    source component has [S] instance vertices in the snapshot and the bolt
    has [D], the block has [S * D] edges, all different, and they are
    exactly the edges from a source instance to a destination instance
    that carry the [stream_name] and the [grouping] of the declaration. *)
Theorem logical_connections_cross_product tid tref lp g :
  ∃ blocks : list (list Edge),
    _create_logical_connections tid tref lp g =
      ({| vertices := vertices g; edges := edges g ++ concat blocks |},
       inr tt) ∧
    Forall2
      (λ '(bolt_name, stream) block,
         let sources := instances_of tid tref (component_name stream) g in
         let destinations := instances_of tid tref bolt_name g in
         length block = (length sources * length destinations)%nat ∧
         NoDup block ∧
         ∀ e, e ∈ block ↔
              ∃ s d, s ∈ sources ∧ d ∈ destinations ∧
                     e = {| e_label := "logically_connected";
                            e_out := s;
                            e_in := d;
                            e_props :=
                              <["grouping" := grouping stream]>
                                (<["stream_name" := stream_name stream]> ∅)
                         |})
      (declared_streams lp) blocks.
Proof.
  exists (stream_edges tid tref g <$> declared_streams lp). split.
  - by rewrite create_logical_connections_edges, concat_fmap_bind.
  - apply Forall2_fmap_r, Forall_Forall2_diag, Forall_forall.
    intros [bolt_name stream] _.
    apply stream_edges_cross_product.
Qed.

(** ** The builtins *)

Lemma split_no_separator sep s : occurs sep s = false → Py.split sep s = [s].
Proof.
  induction s as [|c r IH]; simpl; [done|].
  intros [Hc Hr]%orb_false_iff. apply bool_decide_eq_false in Hc.
  rewrite decide_False by done. by rewrite IH.
Qed.













(** ** Stream managers and containers *)

Lemma count_vertices_app l vs vs' :
  count_vertices l (vs ++ vs') = (count_vertices l vs + count_vertices l vs')%nat.
Proof. unfold count_vertices. by rewrite filter_app, length_app. Qed.

Lemma count_vertices_cons l x vs :
  count_vertices l (x :: vs) =
  ((if decide (v_label x = l) then 1 else 0) + count_vertices l vs)%nat.
Proof.
  unfold count_vertices. rewrite filter_cons. by destruct (decide _).
Qed.

Lemma with_stmgrs_same pp : with_stmgrs pp (pp_stmgrs pp) = pp.
Proof. by destruct pp. Qed.

(** One turn of the loop of [_create_stream_managers], on an id that yields
    a container index and on one that does not.  The two vertices of a turn
    do not depend on the graph. *)
Lemma create_stream_managers_turn tid tref pp key sm rest c :
  container_index (sm_id sm) = inr c →
  ∃ s k,
    (v_label s = "stream_manager" ∧
     v_props s !! "id" = Some (VStr (sm_id sm)) ∧
     v_props s !! "host" = Some (sm_host sm) ∧
     v_props s !! "port" = Some (sm_port sm) ∧
     v_props s !! "shell_port" = Some (sm_shell_port sm) ∧
     tagged tid tref s) ∧
    container_vertex tid tref c k ∧
    ∀ g,
      _create_stream_managers tid tref (with_stmgrs pp ((key, sm) :: rest)) g =
      _create_stream_managers tid tref (with_stmgrs pp rest)
        {| vertices := vertices g ++ [s; k];
           edges := edges g ++ [is_within_edge (length (vertices g))
                                               (length (vertices g) + 1)] |}.
Proof.
  intros Hc. eexists _, _. split; [|split].
  3: { intros g. unfold _create_stream_managers. simpl.
       unfold bind at 1 2 3 4, next, lift, to_vertex. rewrite Hc. simpl.
       rewrite <- app_assoc, length_app. simpl. reflexivity. }
  - unfold tagged. repeat split; prop_lookup.
  - unfold container_vertex, tagged. repeat split; prop_lookup.
Qed.

Lemma create_stream_managers_stop tid tref pp key sm rest e :
  container_index (sm_id sm) = inl e →
  ∃ s,
    (v_label s = "stream_manager" ∧
     v_props s !! "id" = Some (VStr (sm_id sm)) ∧
     tagged tid tref s) ∧
    ∀ g,
      _create_stream_managers tid tref (with_stmgrs pp ((key, sm) :: rest)) g =
      ({| vertices := vertices g ++ [s]; edges := edges g |}, inl e).
Proof.
  intros Hc. eexists. split.
  2: { intros g. unfold _create_stream_managers. simpl.
       unfold bind, next, lift. rewrite Hc. reflexivity. }
  unfold tagged. repeat split; prop_lookup.
Qed.

Lemma decodable_inr sm :
  decodable sm = true → ∃ c, container_index (sm_id sm) = inr c.
Proof. unfold decodable. destruct (container_index _); [done|eauto]. Qed.

(** The whole loop, on ids that all yield a container index: two vertices
    and one edge per stream manager, in the order of the plan.  The vertices
    are the same whatever the graph. *)
Lemma create_stream_managers_ok tid tref pp sms :
  forallb decodable (Py.values sms) = true →
  ∃ dv,
    length dv = (2 * length sms)%nat ∧
    count_vertices "stream_manager" dv = length sms ∧
    count_vertices "container" dv = length sms ∧
    Forall (tagged tid tref) dv ∧
    (∀ i sm, Py.values sms !! i = Some sm →
       ∃ s k c,
         container_index (sm_id sm) = inr c ∧
         dv !! (2 * i)%nat = Some s ∧
         v_label s = "stream_manager" ∧
         v_props s !! "id" = Some (VStr (sm_id sm)) ∧
         dv !! (2 * i + 1)%nat = Some k ∧
         container_vertex tid tref c k) ∧
    ∀ g, ∃ de,
      _create_stream_managers tid tref (with_stmgrs pp sms) g =
        ({| vertices := vertices g ++ dv; edges := edges g ++ de |}, inr tt) ∧
      length de = length sms ∧
      ∀ i, (i < length sms)%nat →
           de !! i = Some (is_within_edge (length (vertices g) + 2 * i)
                                          (length (vertices g) + 2 * i + 1)).
Proof.
  induction sms as [|[key sm] rest IH]; intros Hdec.
  - exists []. do 4 (split; [done|]). split; [by intros i sm ?|].
    intros g. exists []. split; [|split; [done|intros i ?; simpl in *; lia]].
    destruct g. unfold _create_stream_managers. simpl.
    by rewrite !app_nil_r.
  - simpl in Hdec. apply andb_true_iff in Hdec as [Hsm Hrest].
    destruct (decodable_inr _ Hsm) as [c Hc].
    destruct (create_stream_managers_turn tid tref pp key sm rest c Hc)
      as (s & k & (Hls & Hids & _ & _ & _ & Hts) & Hk & Hrun).
    destruct (IH Hrest) as (dv & Hdv & Hcs & Hck & Htag & Hpos & Hruns).
    exists (s :: k :: dv). destruct Hk as (Hlk & Hidk & Htk).
    split; [simpl; lia|].
    split; [by rewrite !count_vertices_cons, Hls, Hlk, Hcs|].
    split; [by rewrite !count_vertices_cons, Hls, Hlk, Hck|].
    split; [constructor; [done|]; by constructor|]. split.
    + intros [|i] sm' Hsm'.
      * simpl in Hsm'. injection Hsm' as <-. by exists s, k, c.
      * simpl in Hsm'. destruct (Hpos i sm' Hsm')
          as (s' & k' & c' & Hc' & Hs' & ? & ? & Hk' & ?).
        exists s', k', c'.
        replace (2 * S i)%nat with (S (S (2 * i))) by lia. done.
    + intros g.
      destruct (Hruns {| vertices := vertices g ++ [s; k];
                         edges := edges g ++
                                  [is_within_edge (length (vertices g))
                                     (length (vertices g) + 1)] |})
        as (de & Hrun' & Hde & Hedges).
      exists (is_within_edge (length (vertices g))
                (length (vertices g) + 1) :: de).
      split; [|split; [simpl; lia|]].
      * rewrite Hrun, Hrun'. simpl. by rewrite <- !app_assoc.
      * intros [|i] Hi.
        -- simpl. by rewrite !Nat.add_0_r.
        -- simpl in Hi. simpl. rewrite Hedges by lia. simpl.
           rewrite length_app. simpl. do 2 f_equal; lia.
Qed.


(** A run that returns normally has met decodable ids only. *)
Lemma create_stream_managers_ok_inv tid tref pp sms g g' :
  _create_stream_managers tid tref (with_stmgrs pp sms) g = (g', inr tt) →
  forallb decodable (Py.values sms) = true.
Proof.
  revert g. induction sms as [|[key sm] rest IH]; intros g Hrun; [done|].
  simpl. destruct (container_index (sm_id sm)) as [e|c] eqn:Hc.
  - destruct (create_stream_managers_stop tid tref pp key sm rest e Hc)
      as (s & _ & Hstop). rewrite Hstop in Hrun. congruence.
  - destruct (create_stream_managers_turn tid tref pp key sm rest c Hc)
      as (s & k & _ & _ & Hturn). rewrite Hturn in Hrun.
    unfold decodable at 1. rewrite Hc. simpl. by eapply IH.
Qed.

(** C3.  On a physical plan with [B] stream managers whose ids all yield a
    container index, [_create_stream_managers] returns normally and adds
    [2 * B] vertices and [B] edges: [B] vertices labelled [stream_manager],
    [B] labelled [container], all tagged with the snapshot, and for the
    stream manager at position [i] of the plan its vertex, the vertex of its
    container, and one [is_within] edge from the first to the second. *)
Theorem create_stream_managers_counts tid tref pp g :
  forallb decodable (Py.values (pp_stmgrs pp)) = true →
  let B := length (pp_stmgrs pp) in
  let n := length (vertices g) in
  ∃ g' dv de,
    _create_stream_managers tid tref pp g = (g', inr tt) ∧
    grows_by g g' dv de ∧
    length dv = (2 * B)%nat ∧
    length de = B ∧
    count_vertices "stream_manager" dv = B ∧
    count_vertices "container" dv = B ∧
    Forall (tagged tid tref) dv ∧
    ∀ i sm, Py.values (pp_stmgrs pp) !! i = Some sm →
      ∃ s k c,
        container_index (sm_id sm) = inr c ∧
        dv !! (2 * i)%nat = Some s ∧
        v_label s = "stream_manager" ∧
        v_props s !! "id" = Some (VStr (sm_id sm)) ∧
        dv !! (2 * i + 1)%nat = Some k ∧
        v_label k = "container" ∧
        v_props k !! "id" = Some (VInt c) ∧
        de !! i = Some {| e_label := "is_within";
                          e_out := n + 2 * i;
                          e_in := n + 2 * i + 1;
                          e_props := ∅ |}.
Proof.
  intros Hdec B n.
  destruct (create_stream_managers_ok tid tref pp (pp_stmgrs pp) Hdec)
    as (dv & Hdv & Hcs & Hck & Htag & Hpos & Hruns).
  destruct (Hruns g) as (de & Hrun & Hde & Hedges).
  rewrite with_stmgrs_same in Hrun.
  eexists _, dv, de. split; [exact Hrun|]. split; [by split|].
  do 5 (split; [done|]).
  intros i sm Hi.
  destruct (Hpos i sm Hi) as (s & k & c & Hc & Hs & ? & ? & Hk & ? & ? & ?).
  exists s, k, c. repeat split; try done.
  apply Hedges. apply lookup_lt_Some in Hi.
  unfold Py.values in Hi. by rewrite length_map in Hi.
Qed.


(** ** Spout and bolt instances *)

Lemma for_each_fmap {A B} (f : A → B) (xs : list A) (body : B → M unit) g :
  for_each (f <$> xs) body g = for_each xs (λ x, body (f x)) g.
Proof.
  revert g. induction xs as [|x xs IH]; intros g; [done|].
  simpl. unfold bind. destruct (body (f x) g) as [g1 [e|[]]]; [done|]. apply IH.
Qed.

Lemma create_spouts_instance_loop tid tref pp lp g :
  create_spouts tid tref pp lp g =
  instance_loop parse_instance_name (spout_vertex tid tref) tid tref pp
    (pp_spouts pp) (lp_spouts lp) g.
Proof.
  unfold _create_spouts, instance_loop. apply for_each_ext.
  by intros [name data] g1 _.
Qed.

Lemma create_bolts_instance_loop tid tref pp lp g :
  create_bolts tid tref pp lp g =
  instance_loop parse_instance_name (bolt_vertex tid tref) tid tref pp
    (pp_bolts pp) (lp_bolts lp) g.
Proof.
  unfold _create_bolts, instance_loop, Py.keys.
  change (map fst (lp_bolts lp)) with (fst <$> lp_bolts lp).
  rewrite for_each_fmap. apply for_each_ext.
  by intros [name data] g1 _.
Qed.

Lemma container_query_label tid tref c x :
  v_label x ≠ "container" → container_query tid tref c x = false.
Proof.
  intros Hx. unfold container_query, has, hasLabel, V.
  by rewrite (bool_decide_eq_false_2 _ Hx).
Qed.

Lemma select_none t n vs :
  Forall (λ x, t x = false) vs → select t n vs = [].
Proof.
  revert n. induction vs as [|x vs IH]; intros n Hvs; [done|].
  apply Forall_cons in Hvs as [Hx Hvs]. simpl. rewrite Hx. by apply IH.
Qed.

Lemma matching_prefix t g0 g :
  vertices g0 `prefix_of` vertices g →
  ∃ more, matching t g = matching t g0 ++ more.
Proof.
  intros [k Hk]. unfold matching. rewrite Hk, select_app. eauto.
Qed.

Section InstanceLoopFacts.

Context {D : Type}.
Context (mk : string → D → Instance → InstanceInfo → Vertex).
Context (lbl : string).
Context (Hmk : ∀ name data inst info, v_label (mk name data inst info) = lbl).
Context (Hlbl : lbl ≠ "container").
Context (tid tref : string) (pp : PhysicalPlan).
Context (physical : list (string * list string)).

Abbreviation body := (instance_body parse_instance_name mk tid tref pp).
Abbreviation ready := (instance_ready parse_instance_name tid tref pp).
Abbreviation wrote := (written parse_instance_name mk tid tref pp).

Lemma instance_body_ok name data tok g inst info h rest :
  parse_instance_name tok = inr inst →
  Py.getitem (pp_instances pp) tok = inr info →
  matching (container_query tid tref (container inst)) g = h :: rest →
  body name data tok g =
  ({| vertices := vertices g ++ [mk name data inst info];
      edges := edges g ++ [is_within_edge (length (vertices g)) h] |},
   inr tt).
Proof.
  intros Hparse Hinfo Hcont. unfold instance_body, bind, lift.
  rewrite Hparse, Hinfo. unfold next, to_traversal, matching. simpl.
  rewrite select_app. unfold matching in Hcont. by rewrite Hcont.
Qed.

Lemma instance_body_parse_error name data tok g e :
  parse_instance_name tok = inl e → body name data tok g = (g, inl e).
Proof. intros Hparse. unfold instance_body, bind, lift. by rewrite Hparse. Qed.

Lemma instance_body_no_info name data tok g inst e :
  parse_instance_name tok = inr inst →
  Py.getitem (pp_instances pp) tok = inl e →
  body name data tok g = (g, inl e).
Proof.
  intros Hparse Hinfo. unfold instance_body, bind, lift.
  by rewrite Hparse, Hinfo.
Qed.

Lemma instance_body_no_container name data tok g inst info :
  parse_instance_name tok = inr inst →
  Py.getitem (pp_instances pp) tok = inr info →
  matching (container_query tid tref (container inst)) g = [] →
  body name data tok g =
  ({| vertices := vertices g ++ [mk name data inst info]; edges := edges g |},
   inl LookupError).
Proof.
  intros Hparse Hinfo Hcont. unfold instance_body, bind, lift.
  rewrite Hparse, Hinfo. unfold next, to_traversal, matching. simpl.
  rewrite select_app. unfold matching in Hcont. rewrite Hcont. simpl.
  rewrite container_query_label; [done|]. by rewrite Hmk.
Qed.

Lemma ready_inv g tok :
  ready g tok = true →
  ∃ inst info h rest,
    parse_instance_name tok = inr inst ∧
    Py.getitem (pp_instances pp) tok = inr info ∧
    matching (container_query tid tref (container inst)) g = h :: rest.
Proof.
  unfold instance_ready.
  destruct (parse_instance_name tok) as [|inst]; [done|].
  destruct (Py.getitem (pp_instances pp) tok) as [|info]; [done|].
  intros Hm%bool_decide_eq_true.
  destruct (matching _ g) as [|h rest] eqn:Hmatch; [done|].
  by exists inst, info, h, rest.
Qed.

Lemma wrote_nil g0 n : wrote g0 n [] [] [].
Proof. split; [done|]. split; [done|]. by intros i ????. Qed.

Lemma wrote_app g0 n w1 w2 dv1 dv2 de1 de2 :
  wrote g0 n w1 dv1 de1 → wrote g0 (n + length w1) w2 dv2 de2 →
  wrote g0 n (w1 ++ w2) (dv1 ++ dv2) (de1 ++ de2).
Proof.
  intros (Hv1 & He1 & H1) (Hv2 & He2 & H2).
  split; [rewrite !length_app; lia|]. split; [rewrite !length_app; lia|].
  intros i name data tok Hi.
  destruct (decide (i < length w1)%nat) as [Hlt|Hge].
  - rewrite lookup_app_l in Hi by done.
    destruct (H1 _ _ _ _ Hi) as (inst & info & h & ? & ? & ? & Hx & He).
    exists inst, info, h. rewrite !lookup_app_l by lia. done.
  - rewrite lookup_app_r in Hi by lia.
    destruct (H2 _ _ _ _ Hi) as (inst & info & h & ? & ? & ? & Hx & He).
    exists inst, info, h. rewrite !lookup_app_r by lia.
    rewrite Hv1, He1. repeat split; try done.
    rewrite He. do 2 f_equal. lia.
Qed.

(** The loop over the instances of one component, all of them ready. *)
Lemma instances_ok name data g0 toks g :
  forallb (ready g0) toks = true →
  vertices g0 `prefix_of` vertices g →
  ∃ dv de,
    for_each toks (body name data) g =
      ({| vertices := vertices g ++ dv; edges := edges g ++ de |}, inr tt) ∧
    wrote g0 (length (vertices g)) (pair (name, data) <$> toks) dv de.
Proof.
  revert g. induction toks as [|tok toks IH]; intros g Hready Hpre.
  - exists [], []. split; [|apply wrote_nil].
    destruct g. simpl. by rewrite !app_nil_r.
  - simpl in Hready. apply andb_true_iff in Hready as [Htok Htoks].
    destruct (ready_inv _ _ Htok) as (inst & info & h & rest & Hp & Hi & Hm).
    destruct (matching_prefix (container_query tid tref (container inst))
                _ _ Hpre) as [more Hmore].
    rewrite Hm in Hmore. simpl in Hmore.
    set (g1 := {| vertices := vertices g ++ [mk name data inst info];
                  edges := edges g ++ [is_within_edge (length (vertices g)) h]
               |}).
    destruct (IH g1 Htoks) as (dv & de & Hrun & Hw).
    { simpl. by apply prefix_app_r. }
    exists (mk name data inst info :: dv),
      (is_within_edge (length (vertices g)) h :: de).
    split.
    + simpl. unfold bind.
      rewrite (instance_body_ok _ _ _ _ _ _ _ _ Hp Hi Hmore).
      fold g1. rewrite Hrun. simpl. by rewrite <- !app_assoc.
    + apply (wrote_app g0 _ [(name, data, tok)] _ [_] _ [_]).
      * split; [done|]. split; [done|]. intros [|i] ??? Hlook; [|done].
        injection Hlook as <- <- <-. exists inst, info, h.
        rewrite Hm, Nat.add_0_r. done.
      * simpl in Hw. rewrite length_app in Hw. exact Hw.
Qed.

Abbreviation loop :=
  (instance_loop parse_instance_name mk tid tref pp physical).
Abbreviation comp_ready :=
  (component_ready (D:=D) parse_instance_name tid tref pp physical).

Lemma comp_ready_inv g name data :
  comp_ready g (name, data) = true →
  ∃ toks, Py.getitem physical name = inr toks ∧
          forallb (ready g) toks = true.
Proof.
  unfold component_ready. simpl.
  destruct (Py.getitem physical name) as [|toks]; [done|]. eauto.
Qed.

Lemma assigned_cons name data toks (comps : list (string * D)) :
  Py.getitem physical name = inr toks →
  assigned physical ((name, data) :: comps) =
  (pair (name, data) <$> toks) ++ assigned physical comps.
Proof. intros Hget. unfold assigned. rewrite bind_cons. simpl. by rewrite Hget. Qed.

(** The loop over the components, all of them ready. *)
Lemma components_ok g0 comps g :
  forallb (comp_ready g0) comps = true →
  vertices g0 `prefix_of` vertices g →
  ∃ dv de,
    loop comps g =
      ({| vertices := vertices g ++ dv; edges := edges g ++ de |}, inr tt) ∧
    wrote g0 (length (vertices g)) (assigned physical comps) dv de.
Proof.
  revert g. induction comps as [|[name data] comps IH]; intros g Hready Hpre.
  - exists [], []. split; [|apply wrote_nil].
    destruct g. simpl. by rewrite !app_nil_r.
  - simpl in Hready. apply andb_true_iff in Hready as [Hcomp Hcomps].
    destruct (comp_ready_inv _ _ _ Hcomp) as (toks & Hget & Htoks).
    destruct (instances_ok name data g0 toks g Htoks Hpre)
      as (dv1 & de1 & Hrun1 & Hw1).
    set (g1 := {| vertices := vertices g ++ dv1; edges := edges g ++ de1 |}).
    destruct (IH g1 Hcomps) as (dv2 & de2 & Hrun2 & Hw2).
    { simpl. by apply prefix_app_r. }
    exists (dv1 ++ dv2), (de1 ++ de2). split.
    + unfold instance_loop. simpl. unfold bind at 1.
      unfold component_body at 1. simpl. unfold bind at 1, lift at 1.
      rewrite Hget, Hrun1. fold g1.
      unfold instance_loop in Hrun2. rewrite Hrun2. simpl.
      by rewrite <- !app_assoc.
    + rewrite (assigned_cons _ _ _ _ Hget). apply wrote_app; [done|].
      simpl in Hw2. rewrite length_app in Hw2.
      destruct Hw1 as (Hlen & _). by rewrite <- Hlen.
Qed.

Lemma wrote_labels g0 n work dv de :
  wrote g0 n work dv de → Forall (λ x, v_label x = lbl) dv.
Proof.
  intros (Hv & _ & Hw). apply Forall_lookup. intros i x Hx.
  destruct (lookup_lt_is_Some_2 work i) as [[[name data] tok] Hi].
  { rewrite <- Hv. by eapply lookup_lt_Some. }
  destruct (Hw _ _ _ _ Hi) as (inst & info & h & _ & _ & _ & Hx' & _).
  rewrite Hx in Hx'. injection Hx' as ->. apply Hmk.
Qed.

(** The graph has no more container vertices after the loop than before. *)
Lemma wrote_no_container g0 n work dv de g c :
  wrote g0 n work dv de →
  matching (container_query tid tref c)
    {| vertices := vertices g ++ dv; edges := edges g ++ de |} =
  matching (container_query tid tref c) g.
Proof.
  intros Hw%wrote_labels. unfold matching. simpl.
  rewrite select_app, (select_none _ _ dv); [by rewrite app_nil_r|].
  eapply Forall_impl; [exact Hw|]. intros x Hx.
  apply container_query_label. by rewrite Hx.
Qed.

(** The loop reaches the instance [tok] of the component [name] when the
    components before it and the instances before it are ready; what it has
    written by then is what it writes for them. *)
Lemma loop_reaches g pre name data post tpre tok tpost :
  forallb (comp_ready g) pre = true →
  Py.getitem physical name = inr (tpre ++ tok :: tpost) →
  forallb (ready g) tpre = true →
  ∃ dv de,
    wrote g (length (vertices g))
      (assigned physical pre ++ (pair (name, data) <$> tpre)) dv de ∧
    loop (pre ++ (name, data) :: post) g =
    bind (body name data tok)
      (λ _, bind (for_each tpost (body name data)) (λ _, loop post))
      {| vertices := vertices g ++ dv; edges := edges g ++ de |}.
Proof.
  intros Hpre Hget Htpre.
  destruct (components_ok g pre g Hpre) as (dv1 & de1 & Hrun1 & Hw1); [done|].
  set (g1 := {| vertices := vertices g ++ dv1; edges := edges g ++ de1 |}).
  destruct (instances_ok name data g tpre g1 Htpre)
    as (dv2 & de2 & Hrun2 & Hw2).
  { simpl. by apply prefix_app_r. }
  exists (dv1 ++ dv2), (de1 ++ de2). split.
  - apply wrote_app; [done|].
    simpl in Hw2. rewrite length_app in Hw2.
    destruct Hw1 as (Hlen & _). by rewrite <- Hlen.
  - unfold instance_loop. rewrite for_each_app. unfold bind at 1.
    unfold instance_loop in Hrun1. rewrite Hrun1. fold g1. simpl.
    unfold bind at 1. unfold component_body at 1. simpl.
    unfold bind at 1, lift at 1. rewrite Hget, for_each_app.
    unfold bind at 1. rewrite Hrun2. simpl. rewrite <- !app_assoc.
    unfold bind. by destruct (body name data tok _) as [g2 [e|[]]].
Qed.

(** The loop stops at a component that the physical plan does not list. *)
Lemma loop_stops_at_component g pre name data post e :
  forallb (comp_ready g) pre = true →
  Py.getitem physical name = inl e →
  ∃ dv de,
    wrote g (length (vertices g)) (assigned physical pre) dv de ∧
    loop (pre ++ (name, data) :: post) g =
    ({| vertices := vertices g ++ dv; edges := edges g ++ de |}, inl e).
Proof.
  intros Hpre Hget.
  destruct (components_ok g pre g Hpre) as (dv & de & Hrun & Hw); [done|].
  exists dv, de. split; [done|].
  unfold instance_loop. rewrite for_each_app. unfold bind at 1.
  unfold instance_loop in Hrun. rewrite Hrun. simpl.
  unfold bind at 1. unfold component_body at 1. simpl.
  unfold bind at 1, lift at 1. by rewrite Hget.
Qed.

(** The three ways the loop stops at an instance it has reached. *)
Lemma loop_stops_at_instance g pre name data post tpre tok tpost :
  forallb (comp_ready g) pre = true →
  Py.getitem physical name = inr (tpre ++ tok :: tpost) →
  forallb (ready g) tpre = true →
  ∃ dv de,
    wrote g (length (vertices g))
      (assigned physical pre ++ (pair (name, data) <$> tpre)) dv de ∧
    (∀ e, parse_instance_name tok = inl e →
          loop (pre ++ (name, data) :: post) g =
          ({| vertices := vertices g ++ dv; edges := edges g ++ de |},
           inl e)) ∧
    (∀ inst e,
       parse_instance_name tok = inr inst →
       Py.getitem (pp_instances pp) tok = inl e →
       loop (pre ++ (name, data) :: post) g =
       ({| vertices := vertices g ++ dv; edges := edges g ++ de |}, inl e)) ∧
    (∀ inst info,
       parse_instance_name tok = inr inst →
       Py.getitem (pp_instances pp) tok = inr info →
       matching (container_query tid tref (container inst)) g = [] →
       loop (pre ++ (name, data) :: post) g =
       ({| vertices := vertices g ++ dv ++ [mk name data inst info];
           edges := edges g ++ de |}, inl LookupError)).
Proof.
  intros Hpre Hget Htpre.
  destruct (loop_reaches g pre name data post tpre tok tpost Hpre Hget Htpre)
    as (dv & de & Hw & Hloop).
  exists dv, de. split; [done|]. split; [|split].
  - intros e Hp. rewrite Hloop. unfold bind at 1.
    by rewrite (instance_body_parse_error _ _ _ _ _ Hp).
  - intros inst e Hp Hinfo. rewrite Hloop. unfold bind at 1.
    by rewrite (instance_body_no_info _ _ _ _ _ _ Hp Hinfo).
  - intros inst info Hp Hinfo Hnone. rewrite Hloop. unfold bind at 1.
    rewrite (instance_body_no_container _ _ _ _ _ _ Hp Hinfo).
    + simpl. by rewrite <- app_assoc.
    + by rewrite (wrote_no_container _ _ _ _ _ _ _ Hw).
Qed.

(** The loop does not return normally when it has a component that the
    physical plan does not list, or an instance without an entry. *)
Lemma for_each_never_ok {A} (xs : list A) (bd : A → M unit) x :
  x ∈ xs → (∀ g, (bd x g).2 ≠ inr tt) → ∀ g, (for_each xs bd g).2 ≠ inr tt.
Proof.
  intros Hx Hbd. induction xs as [|y xs IH]; intros g.
  - by apply elem_of_nil in Hx.
  - simpl. unfold bind. apply elem_of_cons in Hx as [<-|Hx].
    + specialize (Hbd g). by destruct (bd x g) as [g1 [e|[]]].
    + destruct (bd y g) as [g1 [e|[]]]; [done|]. by apply IH.
Qed.

Lemma loop_never_ok_component comps name data e :
  (name, data) ∈ comps → Py.getitem physical name = inl e →
  ∀ g, (loop comps g).2 ≠ inr tt.
Proof.
  intros Hin Hget. apply (for_each_never_ok _ _ (name, data)); [done|].
  intros g. unfold component_body, bind, lift. simpl. by rewrite Hget.
Qed.

Lemma loop_never_ok_instance comps name data toks tok e :
  (name, data) ∈ comps → Py.getitem physical name = inr toks → tok ∈ toks →
  Py.getitem (pp_instances pp) tok = inl e →
  ∀ g, (loop comps g).2 ≠ inr tt.
Proof.
  intros Hin Hget Htok Hinfo. apply (for_each_never_ok _ _ (name, data)); [done|].
  intros g. unfold component_body. simpl. unfold bind at 1, lift at 1.
  rewrite Hget. apply (for_each_never_ok _ _ tok); [done|].
  intros g1. unfold instance_body, bind, lift. rewrite Hinfo.
  by destruct (parse_instance_name tok).
Qed.

(** What the loop writes for given instances: the vertices do not depend on
    the graph, and the edges are containment edges. *)
Lemma wrote_vertices_unique g0 n work dv de g0' n' dv' de' :
  wrote g0 n work dv de → wrote g0' n' work dv' de' → dv = dv'.
Proof.
  intros (Hv & _ & Hw) (Hv' & _ & Hw'). apply list_eq. intros i.
  destruct (work !! i) as [[[name data] tok]|] eqn:Hi.
  - destruct (Hw _ _ _ _ Hi) as (inst & info & h & Hp & Hinfo & _ & -> & _).
    destruct (Hw' _ _ _ _ Hi) as (inst' & info' & h' & Hp' & Hinfo' & _ & -> & _).
    congruence.
  - apply lookup_ge_None in Hi.
    rewrite !(proj2 (lookup_ge_None _ _)); [done|lia|lia].
Qed.

Lemma wrote_edges g0 n work dv de :
  wrote g0 n work dv de →
  Forall (λ e, e_label e = "is_within" ∧ e_props e = ∅) de.
Proof.
  intros (_ & He & Hw). apply Forall_lookup. intros i e Hie.
  destruct (lookup_lt_is_Some_2 work i) as [[[name data] tok] Hi].
  { rewrite <- He. by eapply lookup_lt_Some. }
  destruct (Hw _ _ _ _ Hi) as (inst & info & h & _ & _ & _ & _ & He').
  rewrite Hie in He'. by injection He' as ->.
Qed.

End InstanceLoopFacts.

Lemma container_query_true tid tref c k :
  container_query tid tref c k = true → container_vertex tid tref c k.
Proof.
  unfold container_query, has, hasLabel, V.
  rewrite !andb_true_iff, !bool_decide_eq_true.
  intros [[[[_ Hl] Hi] Hr] Hc]. by repeat split.
Qed.

Lemma head_matching t g h :
  head (matching t g) = Some h →
  ∃ k, vertices g !! h = Some k ∧ t k = true.
Proof.
  intros Hh. apply elem_of_matching.
  destruct (matching t g) as [|h' rest]; [done|].
  injection Hh as ->. by left.
Qed.

Lemma spout_vertex_props tid tref name data inst info :
  instance_vertex "spout" tid tref name inst info
    (spout_vertex tid tref name data inst info).
Proof. unfold instance_vertex, tagged. repeat split; prop_lookup. Qed.

Lemma bolt_vertex_props tid tref name data inst info :
  instance_vertex "bolt" tid tref name inst info
    (bolt_vertex tid tref name data inst info).
Proof. unfold instance_vertex, tagged. repeat split; prop_lookup. Qed.

(** From the positions of [written] to the statement of [instances_written]. *)
Lemma written_instances_written {D} (mk : string → D → _ → _ → Vertex)
    label tid tref pp g work dv de :
  (∀ name data inst info,
     instance_vertex label tid tref name inst info (mk name data inst info)) →
  written parse_instance_name mk tid tref pp g (length (vertices g)) work
    dv de →
  instances_written parse_instance_name label tid tref pp g
    {| vertices := vertices g ++ dv; edges := edges g ++ de |} work.
Proof.
  intros Hmk (Hv & He & Hw). exists dv, de.
  split; [done|]. split; [done|]. split; [done|].
  intros i name data tok Hi.
  destruct (Hw _ _ _ _ Hi) as (inst & info & h & Hp & Hinfo & Hh & Hx & Hed).
  destruct (head_matching _ _ _ Hh) as (k & Hk & Hq).
  exists inst, info, (mk name data inst info), h, k.
  repeat split; try done; try apply Hmk.
  all: by apply container_query_true in Hq as (? & ? & ? & ?).
Qed.

Lemma getitem_elem_of {A} (d : list (string * A)) k a :
  NoDup (Py.keys d) → (k, a) ∈ d → Py.getitem d k = inr a.
Proof.
  induction d as [|[k' a'] d IH]; simpl.
  - by intros _ ?%elem_of_nil.
  - intros [Hk' Hnd]%NoDup_cons [Heq|Hin]%elem_of_cons.
    + injection Heq as -> ->. by rewrite decide_True.
    + destruct (decide (k' = k)) as [->|]; [|by apply IH].
      destruct Hk'. unfold Py.keys. change (map fst d) with (fst <$> d).
      apply list_elem_of_fmap. by exists (k, a).
Qed.

(** The instances the loop visits are those that the physical plan lists
    under a component of the logical plan. *)
Lemma elem_of_assigned {D} (physical : list (string * list string))
    (comps : list (string * D)) name data tok :
  (name, data, tok) ∈ assigned physical comps ↔
  (name, data) ∈ comps ∧
  ∃ toks, Py.getitem physical name = inr toks ∧ tok ∈ toks.
Proof.
  unfold assigned. rewrite list_elem_of_bind. split.
  - intros ([name' data'] & Hin & Hc). simpl in Hin.
    destruct (Py.getitem physical name') as [e|toks] eqn:Hget.
    + by apply elem_of_nil in Hin.
    + apply list_elem_of_fmap in Hin as (tok' & Heq & Htok).
      injection Heq as -> -> ->. split; [done|]. by exists toks.
  - intros (Hc & toks & Hget & Htok). exists (name, data). split; [|done].
    simpl. rewrite Hget. apply list_elem_of_fmap. by exists tok.
Qed.

Lemma assigned_named {D} (physical : list (string * list string))
    (comps : list (string * D)) name toks tok :
  NoDup (Py.keys physical) →
  (name, toks) ∈ physical → tok ∈ toks →
  (∃ data, (name, data, tok) ∈ assigned physical comps) ↔
  name ∈ Py.keys comps.
Proof.
  intros Hnd Hin Htok. split.
  - intros (data & (Hc & _)%elem_of_assigned).
    unfold Py.keys. change (map fst comps) with (fst <$> comps).
    apply list_elem_of_fmap. by exists (name, data).
  - intros Hname. unfold Py.keys in Hname.
    change (map fst comps) with (fst <$> comps) in Hname.
    apply list_elem_of_fmap in Hname as ([name' data] & -> & Hc).
    exists data. apply elem_of_assigned. split; [done|].
    exists toks. split; [|done]. by apply getitem_elem_of.
Qed.

(** C4 (amended).  When every spout component of the logical plan is listed
    in the physical plan and each of its instances has a name that parses,
    an entry in the instance map and a container vertex in the graph,
    [_create_spouts] returns normally and adds, for each of these instances
    in turn, exactly one [spout] vertex and exactly one [is_within] edge,
    and nothing else: the vertex carries the container and the task decoded
    from the name and the stream manager of the entry, the edge leaves it
    and enters a container vertex of the snapshot whose [id] is the decoded
    container.  [_create_bolts] does the same with [bolt] vertices for the
    bolt components.  An instance of the physical plan is among these
    instances exactly when the logical plan names its component: the
    instances of the other components get neither vertex nor edge. *)
Theorem instances_created tid tref pp lp g :
  (forallb (component_ready parse_instance_name tid tref pp (pp_spouts pp) g)
     (lp_spouts lp) = true →
   ∃ g',
     create_spouts tid tref pp lp g = (g', inr tt) ∧
     instances_written parse_instance_name "spout" tid tref pp g g'
       (assigned (pp_spouts pp) (lp_spouts lp))) ∧
  (forallb (component_ready parse_instance_name tid tref pp (pp_bolts pp) g)
     (lp_bolts lp) = true →
   ∃ g',
     create_bolts tid tref pp lp g = (g', inr tt) ∧
     instances_written parse_instance_name "bolt" tid tref pp g g'
       (assigned (pp_bolts pp) (lp_bolts lp))) ∧
  (∀ name toks tok,
     NoDup (Py.keys (pp_spouts pp)) →
     (name, toks) ∈ pp_spouts pp → tok ∈ toks →
     (∃ data, (name, data, tok) ∈ assigned (pp_spouts pp) (lp_spouts lp)) ↔
     name ∈ Py.keys (lp_spouts lp)) ∧
  (∀ name toks tok,
     NoDup (Py.keys (pp_bolts pp)) →
     (name, toks) ∈ pp_bolts pp → tok ∈ toks →
     (∃ data, (name, data, tok) ∈ assigned (pp_bolts pp) (lp_bolts lp)) ↔
     name ∈ Py.keys (lp_bolts lp)).
Proof.
  split; [|split; [|split; intros name toks tok; apply assigned_named]];
    intros Hready.
  - destruct (components_ok (spout_vertex tid tref) tid tref pp (pp_spouts pp)
                g (lp_spouts lp) g Hready) as (dv & de & Hrun & Hw); [done|].
    eexists. split.
    + rewrite create_spouts_instance_loop. exact Hrun.
    + eapply written_instances_written; [|exact Hw].
      apply spout_vertex_props.
  - destruct (components_ok (bolt_vertex tid tref) tid tref pp (pp_bolts pp)
                g (lp_bolts lp) g Hready) as (dv & de & Hrun & Hw); [done|].
    eexists. split.
    + rewrite create_bolts_instance_loop. exact Hrun.
    + eapply written_instances_written; [|exact Hw].
      apply bolt_vertex_props.
Qed.

(** ** The build as a whole *)

Lemma build_unfold tid tref cluster environ lp pp g :
  get_logical_plan tracker_url cluster environ tid = inr lp →
  get_physical_plan tracker_url cluster environ tid = inr pp →
  build tid tref cluster environ g =
  for_each (build_steps parse_instance_name tid tref pp lp) (λ step, step) g.
Proof.
  intros Hlp Hpp. unfold build_topology_graph.
  rewrite (bind_lift_inr _ _ _ _ Hlp), (bind_lift_inr _ _ _ _ Hpp).
  simpl. unfold bind, ret.
  destruct (_create_stream_managers _ _ _ _) as [g1 [e|[]]]; [done|].
  destruct (create_spouts _ _ _ _ _) as [g2 [e|[]]]; [done|].
  destruct (create_bolts _ _ _ _ _) as [g3 [e|[]]]; [done|].
  by destruct (_create_logical_connections _ _ _ _) as [g4 [e|[]]].
Qed.

Lemma container_query_intro tid tref c k :
  container_vertex tid tref c k → container_query tid tref c k = true.
Proof.
  intros (Hl & Hi & Ht & Hr). unfold container_query, has, hasLabel, V.
  by rewrite !andb_true_iff, !bool_decide_eq_true.
Qed.

Lemma containers_present_prefix tid tref pp g g' :
  containers_present tid tref pp g →
  vertices g `prefix_of` vertices g' →
  containers_present tid tref pp g'.
Proof.
  intros Hg Hpre c Hc.
  destruct (matching_prefix (container_query tid tref c) _ _ Hpre)
    as [more ->].
  specialize (Hg c Hc). by destruct (matching _ g).
Qed.

(** After [_create_stream_managers] the containers of the plan are there. *)
Lemma create_stream_managers_containers tid tref pp g g' :
  _create_stream_managers tid tref pp g = (g', inr tt) →
  containers_present tid tref pp g'.
Proof.
  intros Hrun c Hc.
  assert (forallb decodable (Py.values (pp_stmgrs pp)) = true) as Hdec.
  { eapply create_stream_managers_ok_inv. by rewrite with_stmgrs_same. }
  destruct (create_stream_managers_ok tid tref pp (pp_stmgrs pp) Hdec)
    as (dv & _ & _ & _ & _ & Hpos & Hruns).
  destruct (Hruns g) as (de & Hrun' & _).
  rewrite with_stmgrs_same, Hrun in Hrun'. injection Hrun' as ->.
  apply existsb_exists in Hc as (sm & Hsm & Hc).
  apply bool_decide_eq_true in Hc.
  apply list_elem_of_In, list_elem_of_lookup in Hsm as [i Hi].
  destruct (Hpos i sm Hi) as (s & k & c' & Hc' & _ & _ & _ & Hk & Hkc).
  rewrite Hc in Hc'. injection Hc' as <-.
  assert ((length (vertices g) + (2 * i + 1))%nat ∈
          matching (container_query tid tref c)
            {| vertices := vertices g ++ dv; edges := edges g ++ de |}) as Hin.
  { apply elem_of_matching. exists k. split.
    - simpl. by rewrite lookup_app_r, Nat.add_comm, Nat.add_sub by lia.
    - by apply container_query_intro. }
  intros Hnil. rewrite Hnil in Hin. by apply elem_of_nil in Hin.
Qed.

Lemma instance_placed_ready tid tref pp g tok :
  containers_present tid tref pp g →
  instance_placed parse_instance_name pp tok = true →
  instance_ready parse_instance_name tid tref pp g tok = true.
Proof.
  intros Hg. unfold instance_placed, instance_ready.
  destruct (parse_instance_name tok) as [|inst]; [done|].
  destruct (Py.getitem (pp_instances pp) tok) as [|info]; [done|].
  intros Hc. apply bool_decide_eq_true. by apply Hg.
Qed.

Lemma components_placed_ready {D} tid tref pp physical g
    (comps : list (string * D)) :
  containers_present tid tref pp g →
  forallb (component_placed parse_instance_name pp physical) comps = true →
  forallb (component_ready parse_instance_name tid tref pp physical g) comps
  = true.
Proof.
  intros Hg. rewrite !forallb_forall. intros Hcomps comp Hcomp.
  specialize (Hcomps comp Hcomp). unfold component_placed in Hcomps.
  unfold component_ready.
  destruct (Py.getitem physical comp.1) as [|toks]; [done|].
  rewrite forallb_forall in Hcomps. apply forallb_forall. intros tok Htok.
  apply instance_placed_ready; [done|]. by apply Hcomps.
Qed.

Lemma count_vertices_none l vs :
  Forall (λ x, v_label x ≠ l) vs → count_vertices l vs = 0%nat.
Proof.
  unfold count_vertices. induction 1 as [|x vs Hx _ IH]; [done|].
  by rewrite filter_cons_False.
Qed.

Lemma count_edges_all l es :
  Forall (λ e, e_label e = l) es → count_edges l es = length es.
Proof.
  unfold count_edges. induction 1 as [|e es He _ IH]; [done|].
  rewrite filter_cons_True by done. simpl. by rewrite IH.
Qed.

(** A larger graph has the data-flow edges of a smaller one, and more. *)
Lemma stream_edges_mono tid tref lp g g' e :
  vertices g `prefix_of` vertices g' →
  e ∈ declared_streams lp ≫= stream_edges tid tref g →
  e ∈ declared_streams lp ≫= stream_edges tid tref g'.
Proof.
  intros Hpre. rewrite !list_elem_of_bind.
  intros ([bolt_name stream] & He & Hentry).
  exists (bolt_name, stream). split; [|done].
  destruct (stream_edges_cross_product tid tref g bolt_name stream)
    as (_ & _ & Hin).
  destruct (stream_edges_cross_product tid tref g' bolt_name stream)
    as (_ & _ & Hin').
  apply Hin in He as (s & d & Hs & Hd & ->). apply Hin'. exists s, d.
  unfold instances_of in *.
  destruct (matching_prefix
    (V |> has "topology_id" (VStr tid) |> has "topology_ref" (VStr tref)
       |> has "component" (VStr (component_name stream))) _ _ Hpre)
    as [more1 ->].
  destruct (matching_prefix
    (V |> has "topology_id" (VStr tid) |> has "topology_ref" (VStr tref)
       |> has "component" (VStr bolt_name)) _ _ Hpre)
    as [more2 ->].
  rewrite !elem_of_app. auto.
Qed.

Lemma stream_edges_labels tid tref lp g :
  Forall (λ e, e_label e = "logically_connected")
    (declared_streams lp ≫= stream_edges tid tref g).
Proof.
  apply Forall_forall. intros e.
  rewrite list_elem_of_bind. intros ([bolt_name stream] & He & _).
  destruct (stream_edges_cross_product tid tref g bolt_name stream)
    as (_ & _ & Hin).
  by apply Hin in He as (s & d & _ & _ & ->).
Qed.

(** The two instance steps, in a graph that has the containers of the plan. *)
Lemma instance_steps_ok tid tref pp lp g :
  containers_present tid tref pp g →
  forallb (component_placed parse_instance_name pp (pp_spouts pp))
    (lp_spouts lp) = true →
  forallb (component_placed parse_instance_name pp (pp_bolts pp))
    (lp_bolts lp) = true →
  ∃ dv2 de2 dv3 de3,
    let g2 := {| vertices := vertices g ++ dv2; edges := edges g ++ de2 |} in
    let g3 := {| vertices := vertices g2 ++ dv3; edges := edges g2 ++ de3 |} in
    create_spouts tid tref pp lp g = (g2, inr tt) ∧
    create_bolts tid tref pp lp g2 = (g3, inr tt) ∧
    written parse_instance_name (spout_vertex tid tref) tid tref pp g
      (length (vertices g)) (assigned (pp_spouts pp) (lp_spouts lp)) dv2 de2 ∧
    written parse_instance_name (bolt_vertex tid tref) tid tref pp g2
      (length (vertices g2)) (assigned (pp_bolts pp) (lp_bolts lp)) dv3 de3.
Proof.
  intros Hg Hsp Hbo.
  destruct (components_ok (spout_vertex tid tref) tid tref pp (pp_spouts pp)
              g (lp_spouts lp) g) as (dv2 & de2 & Hrun2 & Hw2); [|done|].
  { by apply components_placed_ready. }
  set (g2 := {| vertices := vertices g ++ dv2; edges := edges g ++ de2 |}).
  assert (containers_present tid tref pp g2) as Hg2.
  { eapply containers_present_prefix; [exact Hg|]. simpl.
    by apply prefix_app_r. }
  destruct (components_ok (bolt_vertex tid tref) tid tref pp (pp_bolts pp)
              g2 (lp_bolts lp) g2) as (dv3 & de3 & Hrun3 & Hw3); [|done|].
  { by apply components_placed_ready. }
  exists dv2, de2, dv3, de3. simpl. fold g2.
  rewrite create_spouts_instance_loop, create_bolts_instance_loop.
  done.
Qed.

(** A build on plans that fit together returns normally.  The vertices it
    adds and the number of containment edges it adds are the same whatever
    the graph it starts from; its data-flow edges are those of the queries on
    the graph with the new vertices. *)
Lemma build_ok tid tref cluster environ lp pp :
  get_logical_plan tracker_url cluster environ tid = inr lp →
  get_physical_plan tracker_url cluster environ tid = inr pp →
  plans_consistent parse_instance_name pp lp = true →
  ∃ dv,
    count_vertices "stream_manager" dv = length (pp_stmgrs pp) ∧
    count_vertices "container" dv = length (pp_stmgrs pp) ∧
    (length (pp_stmgrs pp) ≤ length dv)%nat ∧
    ∀ g, ∃ dew,
      let g3 := {| vertices := vertices g ++ dv; edges := edges g ++ dew |} in
      build tid tref cluster environ g =
        (add_edges g3 (declared_streams lp ≫= stream_edges tid tref g3),
         inr tt) ∧
      Forall (λ e, e_label e = "is_within") dew ∧
      length dew = (length dv - length (pp_stmgrs pp))%nat.
Proof.
  intros Hlp Hpp Hcons.
  apply andb_true_iff in Hcons as [[Hdec Hsp]%andb_true_iff Hbo].
  destruct (create_stream_managers_ok tid tref pp (pp_stmgrs pp) Hdec)
    as (dv1 & Hdv1 & Hcs & Hck & _ & _ & Hruns).
  assert (∀ g, ∃ de1 dv2 de2 dv3 de3,
    let g1 := {| vertices := vertices g ++ dv1; edges := edges g ++ de1 |} in
    let g2 := {| vertices := vertices g1 ++ dv2; edges := edges g1 ++ de2 |} in
    let g3 := {| vertices := vertices g2 ++ dv3; edges := edges g2 ++ de3 |} in
    _create_stream_managers tid tref pp g = (g1, inr tt) ∧
    create_spouts tid tref pp lp g1 = (g2, inr tt) ∧
    create_bolts tid tref pp lp g2 = (g3, inr tt) ∧
    length de1 = length (pp_stmgrs pp) ∧
    Forall (λ e, e_label e = "is_within") de1 ∧
    written parse_instance_name (spout_vertex tid tref) tid tref pp g1
      (length (vertices g1)) (assigned (pp_spouts pp) (lp_spouts lp)) dv2 de2 ∧
    written parse_instance_name (bolt_vertex tid tref) tid tref pp g2
      (length (vertices g2)) (assigned (pp_bolts pp) (lp_bolts lp)) dv3 de3)
    as Hsteps.
  { intros g. destruct (Hruns g) as (de1 & Hrun1 & Hde1 & Hedges).
    rewrite with_stmgrs_same in Hrun1.
    destruct (instance_steps_ok tid tref pp lp _
                (create_stream_managers_containers _ _ _ _ _ Hrun1) Hsp Hbo)
      as (dv2 & de2 & dv3 & de3 & Hrun2 & Hrun3 & Hw2 & Hw3).
    exists de1, dv2, de2, dv3, de3. simpl.
    split; [done|]. split; [done|]. split; [done|]. split; [done|].
    split; [|done].
    apply Forall_lookup. intros i e Hi.
    rewrite Hedges in Hi by (rewrite <- Hde1; by eapply lookup_lt_Some).
    by injection Hi as <-. }
  destruct (Hsteps empty_graph)
    as (de1 & dv2 & de2 & dv3 & de3 & _ & _ & _ & _ & _ & Hw2 & Hw3).
  exists (dv1 ++ dv2 ++ dv3).
  pose proof (wrote_labels (spout_vertex tid tref) "spout" (λ _ _ _ _, eq_refl)
                tid tref pp _ _ _ _ _ Hw2) as Hl2.
  pose proof (wrote_labels (bolt_vertex tid tref) "bolt" (λ _ _ _ _, eq_refl)
                tid tref pp _ _ _ _ _ Hw3) as Hl3.
  split; [|split; [|split]].
  - rewrite !count_vertices_app, Hcs.
    rewrite !count_vertices_none; [lia| |];
      (eapply Forall_impl; [eassumption|]); by intros x ->.
  - rewrite !count_vertices_app, Hck.
    rewrite !count_vertices_none; [lia| |];
      (eapply Forall_impl; [eassumption|]); by intros x ->.
  - rewrite !length_app. lia.
  - intros g.
    destruct (Hsteps g)
      as (de1' & dv2' & de2' & dv3' & de3' & Hrun1 & Hrun2 & Hrun3 & Hde1 &
          Hwithin1 & Hw2' & Hw3').
    assert (dv2' = dv2) as ->.
    { eapply (wrote_vertices_unique (spout_vertex tid tref)); eassumption. }
    assert (dv3' = dv3) as ->.
    { eapply (wrote_vertices_unique (bolt_vertex tid tref)); eassumption. }
    exists (de1' ++ de2' ++ de3'). simpl. split; [|split].
    + unfold build_topology_graph.
      rewrite (bind_lift_inr _ _ _ _ Hlp), (bind_lift_inr _ _ _ _ Hpp).
      rewrite (bind_inr _ _ _ _ _ Hrun1), (bind_inr _ _ _ _ _ Hrun2),
        (bind_inr _ _ _ _ _ Hrun3).
      rewrite create_logical_connections_edges. simpl.
      by rewrite <- !app_assoc.
    + apply Forall_app. split; [done|]. apply Forall_app. split.
      * eapply Forall_impl; [eapply wrote_edges; exact Hw2'|]. by intros e [? _].
      * eapply Forall_impl; [eapply wrote_edges; exact Hw3'|]. by intros e [? _].
    + destruct Hw2' as (Hv2 & He2 & _), Hw3' as (Hv3 & He3 & _).
      rewrite !length_app. lia.
Qed.

Lemma count_vertices_tagged_app l tid tref vs vs' :
  count_vertices_tagged l tid tref (vs ++ vs') =
  (count_vertices_tagged l tid tref vs + count_vertices_tagged l tid tref vs')%nat.
Proof. unfold count_vertices_tagged. by rewrite filter_app, length_app. Qed.

Lemma count_vertices_tagged_all l tid tref vs :
  Forall (tagged tid tref) vs →
  count_vertices_tagged l tid tref vs = count_vertices l vs.
Proof.
  unfold count_vertices_tagged, count_vertices.
  induction 1 as [|x vs Hx _ IH]; [done|].
  destruct (decide (v_label x = l)) as [Hl|Hl].
  - rewrite !filter_cons_True by done. simpl. by rewrite IH.
  - rewrite !filter_cons_False; [done|done|]. by intros [? _].
Qed.

(** C7.  On plans that fit together, a build returns normally from every
    graph and adds the same vertices whatever the graph holds: it looks no
    vertex up before it creates one.  So a second build with the same
    arguments and plans adds every vertex a second time: the snapshot gains
    [2 * B] [stream_manager] and [2 * B] [container] vertices over the two
    builds.  The second build adds as many [is_within] edges as the first
    and adds each [logically_connected] edge of the first again.  With at
    least one stream manager the second build changes the graph. *)
Theorem rebuild_duplicates tid tref cluster environ lp pp :
  get_logical_plan tracker_url cluster environ tid = inr lp →
  get_physical_plan tracker_url cluster environ tid = inr pp →
  plans_consistent parse_instance_name pp lp = true →
  let B := length (pp_stmgrs pp) in
  ∃ dv,
    count_vertices "stream_manager" dv = B ∧
    count_vertices "container" dv = B ∧
    Forall (tagged tid tref) dv ∧
    (∀ g, ∃ g' de,
       build tid tref cluster environ g = (g', inr tt) ∧ grows_by g g' dv de) ∧
    ∀ g0, ∃ g1 g2 de1 de2,
      build tid tref cluster environ g0 = (g1, inr tt) ∧
      build tid tref cluster environ g1 = (g2, inr tt) ∧
      grows_by g0 g1 dv de1 ∧
      grows_by g1 g2 dv de2 ∧
      count_vertices_tagged "stream_manager" tid tref (vertices g2) =
        (count_vertices_tagged "stream_manager" tid tref (vertices g0)
         + 2 * B)%nat ∧
      count_vertices_tagged "container" tid tref (vertices g2) =
        (count_vertices_tagged "container" tid tref (vertices g0)
         + 2 * B)%nat ∧
      count_edges "is_within" de2 = count_edges "is_within" de1 ∧
      (∀ e, e ∈ de1 → e_label e = "logically_connected" → e ∈ de2) ∧
      ((0 < B)%nat → g2 ≠ g1).
Proof.
  intros Hlp Hpp Hcons B.
  destruct (build_ok tid tref cluster environ lp pp Hlp Hpp Hcons)
    as (dv & Hcs & Hck & Hlen & Hruns).
  assert (Forall (tagged tid tref) dv) as Htag.
  { destruct (Hruns empty_graph) as (dew & Hrun & _).
    destruct (build_creates tid tref cluster environ empty_graph)
      as (dv' & de' & [Hv' _] & Hbv & _).
    rewrite Hrun in Hv'. simpl in Hv'. subst dv'.
    eapply Forall_impl; [exact Hbv|]. by intros x [? _]. }
  exists dv. split; [done|]. split; [done|]. split; [done|]. split.
  - intros g. destruct (Hruns g) as (dew & Hrun & _).
    eexists _, _. split; [exact Hrun|]. split; [done|].
    simpl. by rewrite <- app_assoc.
  - intros g0.
    destruct (Hruns g0) as (dew1 & Hrun1 & Hw1 & Hl1).
    set (g1 := add_edges {| vertices := vertices g0 ++ dv;
                            edges := edges g0 ++ dew1 |}
                 (declared_streams lp ≫= stream_edges tid tref
                    {| vertices := vertices g0 ++ dv;
                       edges := edges g0 ++ dew1 |})) in *.
    destruct (Hruns g1) as (dew2 & Hrun2 & Hw2 & Hl2).
    set (g2 := add_edges {| vertices := vertices g1 ++ dv;
                            edges := edges g1 ++ dew2 |}
                 (declared_streams lp ≫= stream_edges tid tref
                    {| vertices := vertices g1 ++ dv;
                       edges := edges g1 ++ dew2 |})) in *.
    exists g1, g2. eexists (dew1 ++ _), (dew2 ++ _).
    split; [exact Hrun1|]. split; [exact Hrun2|].
    split; [split; [done|]; simpl; by rewrite <- app_assoc|].
    split; [split; [done|]; simpl; by rewrite <- app_assoc|].
    split; [|split; [|split; [|split]]].
    + simpl. rewrite !count_vertices_tagged_app.
      rewrite !(count_vertices_tagged_all _ _ _ dv) by done. lia.
    + simpl. rewrite !count_vertices_tagged_app.
      rewrite !(count_vertices_tagged_all _ _ _ dv) by done. lia.
    + rewrite !count_edges_app.
      rewrite !(count_edges_other "is_within" (_ ≫= _)).
      * rewrite !count_edges_all by done. lia.
      * eapply Forall_impl; [apply stream_edges_labels|]. by intros e ->.
      * eapply Forall_impl; [apply stream_edges_labels|]. by intros e ->.
    + intros e [He|He]%elem_of_app Hlabel.
      * rewrite Forall_forall in Hw1. specialize (Hw1 _ He). congruence.
      * apply elem_of_app. right.
        eapply stream_edges_mono; [|exact He].
        simpl. by apply prefix_app_r.
    + intros HB Heq. apply (f_equal (λ g, length (vertices g))) in Heq.
      simpl in Heq. rewrite !length_app in Heq. lia.
Qed.

(** ** Errors *)

Lemma build_steps_create tid tref pp lp step :
  step ∈ build_steps parse_instance_name tid tref pp lp →
  creates (builder_vertex tid tref) builder_edge step.
Proof.
  unfold build_steps. rewrite !elem_of_cons, elem_of_nil.
  intros [->|[->|[->|[->|[]]]]].
  - apply create_stream_managers_creates.
  - apply create_spouts_creates.
  - apply create_bolts_creates.
  - eapply creates_weaken; [| |apply create_logical_connections_creates];
      [done|done].
Qed.

(** C6.  An error of the tracker client is the error of the build, which
    leaves the graph as it was.  When a step of the build raises after the
    steps before it have returned normally, the build returns that error and
    the graph the step has reached, which still holds what was there before
    the build and what the earlier steps and turns have added.  In
    particular, when [_create_spouts] or [_create_bolts] gets to an instance
    for which the graph has no container vertex, it stops with a
    [LookupError]; the vertex of that instance is by then in the graph, after
    one vertex and one edge for each instance processed before it. *)
Theorem errors_surface tid tref cluster environ g :
  (∀ e, get_logical_plan tracker_url cluster environ tid = inl e →
        build tid tref cluster environ g = (g, inl e)) ∧
  (∀ lp e,
     get_logical_plan tracker_url cluster environ tid = inr lp →
     get_physical_plan tracker_url cluster environ tid = inl e →
     build tid tref cluster environ g = (g, inl e)) ∧
  (∀ lp pp pre step post g1 g2 e,
     get_logical_plan tracker_url cluster environ tid = inr lp →
     get_physical_plan tracker_url cluster environ tid = inr pp →
     build_steps parse_instance_name tid tref pp lp = pre ++ step :: post →
     for_each pre (λ s, s) g = (g1, inr tt) →
     step g1 = (g2, inl e) →
     build tid tref cluster environ g = (g2, inl e) ∧
     ∃ dv1 de1 dv2 de2, grows_by g g1 dv1 de1 ∧ grows_by g1 g2 dv2 de2) ∧
  (∀ pp lp name data tok before inst info,
     reaches parse_instance_name tid tref pp (pp_spouts pp) g (lp_spouts lp)
       name data tok before →
     parse_instance_name tok = inr inst →
     Py.getitem (pp_instances pp) tok = inr info →
     matching (container_query tid tref (container inst)) g = [] →
     ∃ dv de x,
       create_spouts tid tref pp lp g =
         ({| vertices := vertices g ++ dv ++ [x]; edges := edges g ++ de |},
          inl LookupError) ∧
       length dv = length before ∧
       length de = length before ∧
       instance_vertex "spout" tid tref name inst info x) ∧
  (∀ pp lp name data tok before inst info,
     reaches parse_instance_name tid tref pp (pp_bolts pp) g (lp_bolts lp)
       name data tok before →
     parse_instance_name tok = inr inst →
     Py.getitem (pp_instances pp) tok = inr info →
     matching (container_query tid tref (container inst)) g = [] →
     ∃ dv de x,
       create_bolts tid tref pp lp g =
         ({| vertices := vertices g ++ dv ++ [x]; edges := edges g ++ de |},
          inl LookupError) ∧
       length dv = length before ∧
       length de = length before ∧
       instance_vertex "bolt" tid tref name inst info x).
Proof.
  split; [|split; [|split; [|split]]].
  - intros e Hlp. unfold build_topology_graph.
    by rewrite (bind_lift_inl _ _ _ _ Hlp).
  - intros lp e Hlp Hpp. unfold build_topology_graph.
    by rewrite (bind_lift_inr _ _ _ _ Hlp), (bind_lift_inl _ _ _ _ Hpp).
  - intros lp pp pre step post g1 g2 e Hlp Hpp Hsteps Hpre Hstep. split.
    + rewrite (build_unfold _ _ _ _ _ _ _ Hlp Hpp), Hsteps, for_each_app.
      rewrite (bind_inr _ _ _ _ _ Hpre). simpl.
      by rewrite (bind_inl _ _ _ _ _ Hstep).
    + destruct (creates_for_each_in (builder_vertex tid tref) builder_edge
                  pre (λ s, s)) with (g := g) as (dv1 & de1 & Hg1 & _).
      { intros s Hs. apply (build_steps_create tid tref pp lp).
        rewrite Hsteps. apply elem_of_app. by left. }
      destruct (build_steps_create tid tref pp lp step) with (g := g1)
        as (dv2 & de2 & Hg2 & _).
      { rewrite Hsteps. apply elem_of_app. right. by left. }
      rewrite Hpre in Hg1. rewrite Hstep in Hg2. by exists dv1, de1, dv2, de2.
  - intros pp lp name data tok before inst info
      (pre & post & tpre & tpost & Hcomps & Hpre & Hget & Htpre & ->)
      Hp Hinfo Hnone.
    destruct (loop_stops_at_instance (spout_vertex tid tref) "spout"
                (λ _ _ _ _, eq_refl) ltac:(done) tid tref pp (pp_spouts pp)
                g pre name data post tpre tok tpost Hpre Hget Htpre)
      as (dv & de & (Hv & He & _) & _ & _ & Hstop).
    exists dv, de, (spout_vertex tid tref name data inst info).
    rewrite create_spouts_instance_loop, Hcomps.
    split; [by apply Hstop|]. split; [done|]. split; [done|].
    apply spout_vertex_props.
  - intros pp lp name data tok before inst info
      (pre & post & tpre & tpost & Hcomps & Hpre & Hget & Htpre & ->)
      Hp Hinfo Hnone.
    destruct (loop_stops_at_instance (bolt_vertex tid tref) "bolt"
                (λ _ _ _ _, eq_refl) ltac:(done) tid tref pp (pp_bolts pp)
                g pre name data post tpre tok tpost Hpre Hget Htpre)
      as (dv & de & (Hv & He & _) & _ & _ & Hstop).
    exists dv, de, (bolt_vertex tid tref name data inst info).
    rewrite create_bolts_instance_loop, Hcomps.
    split; [by apply Hstop|]. split; [done|]. split; [done|].
    apply bolt_vertex_props.
Qed.

Lemma elem_of_keys {A} (d : list (string * A)) k :
  k ∈ Py.keys d → ∃ a, (k, a) ∈ d.
Proof.
  unfold Py.keys. change (map fst d) with (fst <$> d).
  intros ([k' a] & -> & Hin)%list_elem_of_fmap. by exists a.
Qed.

Lemma plan_gap_never_ok {D} (mk : string → D → Instance → InstanceInfo → Vertex)
    tid tref pp physical comps g :
  plan_gap pp physical comps →
  (instance_loop parse_instance_name mk tid tref pp physical comps g).2
  ≠ inr tt.
Proof.
  intros [(name & Hname & Habs)|(name & toks & tok & Hname & Hget & Htok & Habs)].
  - destruct (elem_of_keys _ _ Hname) as [data Hin].
    eapply loop_never_ok_component; [exact Hin|]. by apply getitem_absent.
  - destruct (elem_of_keys _ _ Hname) as [data Hin].
    eapply loop_never_ok_instance; [exact Hin|exact Hget|exact Htok|].
    by apply getitem_absent.
Qed.

(** C10.  The two instance loops run over the components of the logical
    plan.  When [_create_spouts] gets to a component that the physical plan
    does not list under ["spouts"], it stops with the [KeyError] of the
    component name, having written one vertex and one edge for each instance
    of the components before it and nothing for this one.  When it gets to an
    instance whose name parses and that the instance map does not list, it
    stops with the [KeyError] of the instance name, having written one vertex
    and one edge for each instance before it and nothing for this one.
    [_create_bolts] does the same with ["bolts"].  With such a gap in the
    plans, neither the step nor the build returns normally. *)
Theorem missing_plan_entries tid tref pp lp g :
  (∀ name before,
     reaches_component parse_instance_name tid tref pp (pp_spouts pp) g
       (lp_spouts lp) name before →
     name ∉ Py.keys (pp_spouts pp) →
     ∃ dv de,
       create_spouts tid tref pp lp g =
         ({| vertices := vertices g ++ dv; edges := edges g ++ de |},
          inl (KeyError name)) ∧
       length dv = length before ∧ length de = length before) ∧
  (∀ name data tok before inst,
     reaches parse_instance_name tid tref pp (pp_spouts pp) g (lp_spouts lp)
       name data tok before →
     parse_instance_name tok = inr inst →
     tok ∉ Py.keys (pp_instances pp) →
     ∃ dv de,
       create_spouts tid tref pp lp g =
         ({| vertices := vertices g ++ dv; edges := edges g ++ de |},
          inl (KeyError tok)) ∧
       length dv = length before ∧ length de = length before) ∧
  (∀ name before,
     reaches_component parse_instance_name tid tref pp (pp_bolts pp) g
       (lp_bolts lp) name before →
     name ∉ Py.keys (pp_bolts pp) →
     ∃ dv de,
       create_bolts tid tref pp lp g =
         ({| vertices := vertices g ++ dv; edges := edges g ++ de |},
          inl (KeyError name)) ∧
       length dv = length before ∧ length de = length before) ∧
  (∀ name data tok before inst,
     reaches parse_instance_name tid tref pp (pp_bolts pp) g (lp_bolts lp)
       name data tok before →
     parse_instance_name tok = inr inst →
     tok ∉ Py.keys (pp_instances pp) →
     ∃ dv de,
       create_bolts tid tref pp lp g =
         ({| vertices := vertices g ++ dv; edges := edges g ++ de |},
          inl (KeyError tok)) ∧
       length dv = length before ∧ length de = length before) ∧
  (plan_gap pp (pp_spouts pp) (lp_spouts lp) →
   (create_spouts tid tref pp lp g).2 ≠ inr tt) ∧
  (plan_gap pp (pp_bolts pp) (lp_bolts lp) →
   (create_bolts tid tref pp lp g).2 ≠ inr tt) ∧
  (∀ cluster environ,
     get_logical_plan tracker_url cluster environ tid = inr lp →
     get_physical_plan tracker_url cluster environ tid = inr pp →
     plan_gap pp (pp_spouts pp) (lp_spouts lp) ∨
     plan_gap pp (pp_bolts pp) (lp_bolts lp) →
     (build tid tref cluster environ g).2 ≠ inr tt).
Proof.
  assert (∀ g, plan_gap pp (pp_spouts pp) (lp_spouts lp) →
               (create_spouts tid tref pp lp g).2 ≠ inr tt) as Hspouts.
  { intros g0 Hgap. rewrite create_spouts_instance_loop.
    by apply plan_gap_never_ok. }
  assert (∀ g, plan_gap pp (pp_bolts pp) (lp_bolts lp) →
               (create_bolts tid tref pp lp g).2 ≠ inr tt) as Hbolts.
  { intros g0 Hgap. rewrite create_bolts_instance_loop.
    by apply plan_gap_never_ok. }
  split; [|split; [|split; [|split; [|split; [|split]]]]].
  - intros name before (pre & data & post & Hcomps & Hpre & ->) Habs.
    destruct (loop_stops_at_component (spout_vertex tid tref) tid tref pp
                (pp_spouts pp) g pre name data post _ Hpre
                (getitem_absent _ _ Habs))
      as (dv & de & (Hv & He & _) & Hstop).
    exists dv, de. by rewrite create_spouts_instance_loop, Hcomps.
  - intros name data tok before inst
      (pre & post & tpre & tpost & Hcomps & Hpre & Hget & Htpre & ->)
      Hp Habs.
    destruct (loop_stops_at_instance (spout_vertex tid tref) "spout"
                (λ _ _ _ _, eq_refl) ltac:(done) tid tref pp (pp_spouts pp)
                g pre name data post tpre tok tpost Hpre Hget Htpre)
      as (dv & de & (Hv & He & _) & _ & Hstop & _).
    exists dv, de. rewrite create_spouts_instance_loop, Hcomps.
    split; [|done]. apply (Hstop inst); [done|]. by apply getitem_absent.
  - intros name before (pre & data & post & Hcomps & Hpre & ->) Habs.
    destruct (loop_stops_at_component (bolt_vertex tid tref) tid tref pp
                (pp_bolts pp) g pre name data post _ Hpre
                (getitem_absent _ _ Habs))
      as (dv & de & (Hv & He & _) & Hstop).
    exists dv, de. by rewrite create_bolts_instance_loop, Hcomps.
  - intros name data tok before inst
      (pre & post & tpre & tpost & Hcomps & Hpre & Hget & Htpre & ->)
      Hp Habs.
    destruct (loop_stops_at_instance (bolt_vertex tid tref) "bolt"
                (λ _ _ _ _, eq_refl) ltac:(done) tid tref pp (pp_bolts pp)
                g pre name data post tpre tok tpost Hpre Hget Htpre)
      as (dv & de & (Hv & He & _) & _ & Hstop & _).
    exists dv, de. rewrite create_bolts_instance_loop, Hcomps.
    split; [|done]. apply (Hstop inst); [done|]. by apply getitem_absent.
  - apply Hspouts.
  - apply Hbolts.
  - intros cluster environ Hlp Hpp Hgap.
    rewrite (build_unfold _ _ _ _ _ _ _ Hlp Hpp). unfold build_steps.
    destruct Hgap as [Hgap|Hgap].
    + apply (for_each_never_ok _ _ (create_spouts tid tref pp lp)).
      * set_solver.
      * intros g0. by apply Hspouts.
    + apply (for_each_never_ok _ _ (create_bolts tid tref pp lp)).
      * set_solver.
      * intros g0. by apply Hbolts.
Qed.

(** * Further properties of the builder *)

#[local] Set Default Proof Using "Type".

(** ** The container index of a stream manager *)

Lemma split_segments sep s seg :
  seg ∈ Py.split sep s → occurs sep seg = false.
Proof.
  revert seg. induction s as [|c r IH]; intros seg; simpl.
  - by intros ->%list_elem_of_singleton.
  - destruct (decide (c = sep)) as [->|Hc].
    + intros [->|Hin]%elem_of_cons; [done|]. by apply IH.
    + destruct (Py.split sep r) as [|h t] eqn:Hsplit.
      * intros ->%list_elem_of_singleton. simpl.
        by rewrite bool_decide_eq_false_2.
      * intros [->|Hin]%elem_of_cons.
        -- simpl. rewrite bool_decide_eq_false_2 by done. simpl.
           apply IH. by left.
        -- apply IH. by right.
Qed.

Lemma split_several sep s a b rest :
  Py.split sep s = a :: b :: rest → occurs sep s = true.
Proof.
  intros Hsplit. destruct (occurs sep s) eqn:Hocc; [done|].
  by rewrite (split_no_separator _ _ Hocc) in Hsplit.
Qed.

Lemma skip_blanks_occurs c s :
  occurs c s = false → occurs c (Py.skip_blanks s) = false.
Proof.
  induction s as [|c' r IH]; simpl; [done|].
  intros [Hc Hr]%orb_false_iff. destruct (Py.isspace c'); [by apply IH|].
  simpl. by rewrite Hc, Hr.
Qed.

Lemma digit_nonneg c d : Py.digit c = Some d → 0 ≤ d.
Proof.
  unfold Py.digit.
  destruct (48 <=? Z.of_N (N_of_ascii c)) eqn:Hlo; [|done].
  apply Z.leb_le in Hlo. destruct (_ <=? 57); [|done].
  simpl. intros [= <-]. lia.
Qed.

Lemma scan_digits_nonneg b acc s n rest :
  0 ≤ acc → Py.scan_digits b acc s = Some (n, rest) → 0 ≤ n.
Proof.
  revert b acc. induction s as [|c r IH]; intros b acc Hacc; simpl.
  - destruct b; [done|]. by intros [= <- _].
  - destruct (Py.digit c) as [d|] eqn:Hd.
    + apply IH. apply digit_nonneg in Hd. lia.
    + destruct (decide (c = "_"%char)).
      * destruct b; [done|]. by apply IH.
      * destruct b; [done|]. by intros [= <- _].
Qed.

Lemma int_unsigned_nonneg s n : Py.int_unsigned s = Some n → 0 ≤ n.
Proof.
  destruct s as [|c r]; [done|]. simpl.
  destruct (Py.digit c) as [d|] eqn:Hd; [|done].
  destruct (Py.scan_digits false d r) as [[m rest]|] eqn:Hscan; [|done].
  destruct (Py.skip_blanks rest); [|done]. intros [= <-].
  eapply scan_digits_nonneg; [|exact Hscan]. by eapply digit_nonneg.
Qed.

Lemma int_nonneg s n : occurs "-" s = false → Py.int s = inr n → 0 ≤ n.
Proof.
  intros Hs%skip_blanks_occurs. unfold Py.int.
  destruct (Py.skip_blanks s) as [|c t]; [done|]. simpl in Hs.
  apply orb_false_iff in Hs as [Hc _]. apply bool_decide_eq_false in Hc.
  destruct (decide (c = "+"%char)).
  { destruct (Py.int_unsigned t) as [m|] eqn:Ht; [|done].
    intros [= <-]. by eapply int_unsigned_nonneg. }
  rewrite decide_False by done.
  destruct (Py.int_unsigned (String c t)) as [m|] eqn:Ht; [|done].
  intros [= <-]. by eapply int_unsigned_nonneg.
Qed.

(** X1.  A container index read off a stream manager id is never negative,
    and an id that yields one contains the separator. *)
Theorem container_index_nonneg id c :
  container_index id = inr c → 0 ≤ c ∧ occurs "-" id = true.
Proof.
  unfold container_index, Py.index.
  destruct (Py.split "-" id) as [|a [|b rest]] eqn:Hsplit; [done|done|].
  simpl. intros Hint. split.
  - eapply int_nonneg; [|exact Hint].
    apply (split_segments "-" id). rewrite Hsplit, !elem_of_cons. auto.
  - by eapply split_several.
Qed.

(** ** Construction *)

Lemma getitem_present {A} (d : list (string * A)) k :
  k ∈ Py.keys d → ∃ a, Py.getitem d k = inr a.
Proof.
  induction d as [|[k' a] d IH]; simpl.
  - by intros ?%elem_of_nil.
  - destruct (decide (k' = k)); [eauto|].
    intros [?|?]%elem_of_cons; [congruence|]. by apply IH.
Qed.

Lemma getitem_inr_key {A} (d : list (string * A)) k a :
  Py.getitem d k = inr a → k ∈ Py.keys d.
Proof.
  induction d as [|[k' a'] d IH]; simpl; [done|].
  destruct (decide (k' = k)) as [->|]; [intros _; by left|].
  intros H. right. by apply IH.
Qed.

(** X2.  The builder is constructed exactly when the configuration has both
    addresses.  Without the tracker address the constructor raises the
    [KeyError] of ["heron.tracker.url"], whether the other address is there
    or not; with it and without the address of the graph database, that of
    ["caladrius.graph.db.url"].  A constructed builder holds the two
    addresses of the configuration and is connected at
    [ws://<graph database address>/gremlin]. *)
Theorem init_reads_configuration config :
  ("heron.tracker.url" ∉ Py.keys config →
   __init__ config = inl (KeyError "heron.tracker.url")) ∧
  ("heron.tracker.url" ∈ Py.keys config →
   "caladrius.graph.db.url" ∉ Py.keys config →
   __init__ config = inl (KeyError "caladrius.graph.db.url")) ∧
  ("heron.tracker.url" ∈ Py.keys config →
   "caladrius.graph.db.url" ∈ Py.keys config →
   ∃ self, __init__ config = inr self) ∧
  (∀ self,
     __init__ config = inr self →
     Py.getitem config "heron.tracker.url" = inr (self_tracker_url self) ∧
     Py.getitem config "caladrius.graph.db.url" =
       inr (self_graph_db_url self) ∧
     self_connection self = "ws://" +:+ self_graph_db_url self +:+ "/gremlin").
Proof.
  unfold __init__. split; [|split; [|split]].
  - intros Habs. by rewrite (getitem_absent _ _ Habs).
  - intros [t Ht]%getitem_present Habs.
    by rewrite Ht, (getitem_absent _ _ Habs).
  - intros [t Ht]%getitem_present [u Hu]%getitem_present.
    rewrite Ht, Hu. eauto.
  - intros self.
    destruct (Py.getitem config "heron.tracker.url") as [|t]; [done|].
    destruct (Py.getitem config "caladrius.graph.db.url") as [|u]; [done|].
    by intros [= <-].
Qed.

(** ** What each step writes, and what it reads *)

Lemma select_no_component tid tref name n vs :
  Forall (λ x, v_props x !! "component" = None) vs →
  select (V |> has "topology_id" (VStr tid) |> has "topology_ref" (VStr tref)
            |> has "component" (VStr name)) n vs = [].
Proof.
  intros Hvs. apply select_none. eapply Forall_impl; [exact Hvs|].
  intros x Hx. unfold has. rewrite Hx.
  by rewrite (bool_decide_eq_false_2 (None = Some _)), andb_false_r.
Qed.

Lemma create_stream_managers_kind tid tref pp :
  creates (λ x, v_label x ∈ ["stream_manager"; "container"] ∧
                v_props x !! "component" = None)
          (λ e, e_label e = "is_within" ∧ e_props e = ∅)
          (_create_stream_managers tid tref pp).
Proof.
  unfold _create_stream_managers. step_creates.
  - apply creates_next. split; [rewrite !elem_of_cons; auto|prop_lookup].
  - apply creates_next. split; [rewrite !elem_of_cons; auto|prop_lookup].
  - by apply creates_to_vertex.
Qed.

(** X3.  Whatever its outcome, each step leaves what is in the graph in
    place and adds only its own kind of vertices and edges:
    [_create_stream_managers] adds [stream_manager] and [container]
    vertices, none with a [component] property, [_create_spouts] adds
    [spout] vertices, [_create_bolts] adds [bolt] vertices, the three add
    [is_within] edges without properties, and
    [_create_logical_connections] adds [logically_connected] edges and no
    vertex.  So the stream managers and containers are never among the
    instances of a component that [_create_logical_connections] finds. *)
Theorem steps_write_their_own_kind tid tref pp lp :
  creates (λ x, v_label x ∈ ["stream_manager"; "container"] ∧
                v_props x !! "component" = None)
          (λ e, e_label e = "is_within" ∧ e_props e = ∅)
          (_create_stream_managers tid tref pp) ∧
  creates (λ x, v_label x = "spout")
          (λ e, e_label e = "is_within" ∧ e_props e = ∅)
          (create_spouts tid tref pp lp) ∧
  creates (λ x, v_label x = "bolt")
          (λ e, e_label e = "is_within" ∧ e_props e = ∅)
          (create_bolts tid tref pp lp) ∧
  creates (λ _, False) (λ e, e_label e = "logically_connected")
          (_create_logical_connections tid tref lp) ∧
  ∀ name g,
    instances_of tid tref name (_create_stream_managers tid tref pp g).1 =
    instances_of tid tref name g.
Proof.
  pose proof (create_stream_managers_kind tid tref pp) as Hsm.
  split; [exact Hsm|]. split; [|split; [|split]].
  - unfold _create_spouts. step_creates.
    + by apply creates_next.
    + by apply creates_to_traversal.
  - unfold _create_bolts. step_creates.
    + by apply creates_next.
    + by apply creates_to_traversal.
  - unfold _create_logical_connections. step_creates.
    by apply creates_to_vertex.
  - intros name g. destruct (Hsm g) as (dv & de & [Hv _] & Hdv & _).
    unfold instances_of, matching. rewrite Hv, select_app.
    rewrite (select_no_component _ _ _ _ dv); [by rewrite app_nil_r|].
    eapply Forall_impl; [exact Hdv|]. by intros x [_ ?].
Qed.

(** X4.  [_create_spouts] reads of the physical plan the instance map and
    the instance lists of the spout components that the logical plan names,
    and nothing else: two physical plans that agree on these give the same
    run.  The instances of a component that the logical plan does not name
    get no vertex and raise no error.  Likewise for [_create_bolts]. *)
Theorem unnamed_components_ignored tid tref pp pp' lp g :
  pp_instances pp' = pp_instances pp →
  ((∀ name, name ∈ Py.keys (lp_spouts lp) →
            Py.getitem (pp_spouts pp') name = Py.getitem (pp_spouts pp) name) →
   create_spouts tid tref pp' lp g = create_spouts tid tref pp lp g) ∧
  ((∀ name, name ∈ Py.keys (lp_bolts lp) →
            Py.getitem (pp_bolts pp') name = Py.getitem (pp_bolts pp) name) →
   create_bolts tid tref pp' lp g = create_bolts tid tref pp lp g).
Proof.
  intros Hinst. split; intros Hget.
  - unfold _create_spouts. apply for_each_ext.
    intros [name data] g1 Hin. rewrite Hget.
    2: { unfold Py.keys. apply list_elem_of_In, in_map_iff.
         exists (name, data). split; [done|]. by apply list_elem_of_In. }
    unfold bind at 1 3, lift at 1 3.
    destruct (Py.getitem (pp_spouts pp) name) as [e|toks]; [done|].
    apply for_each_ext. intros tok g2 _. by rewrite Hinst.
  - unfold _create_bolts. apply for_each_ext.
    intros name g1 Hin. rewrite (Hget name Hin).
    unfold bind at 1 3, lift at 1 3.
    destruct (Py.getitem (pp_bolts pp) name) as [e|toks]; [done|].
    apply for_each_ext. intros tok g2 _. by rewrite Hinst.
Qed.

(** ** Edges stay inside a snapshot *)

Lemma edge_within_grows g g' e :
  vertices g `prefix_of` vertices g' → edge_within g e → edge_within g' e.
Proof.
  intros [k Hk] (x & y & Hx & Hy & Hxy). exists x, y. rewrite Hk.
  split; [by apply lookup_app_l_Some|]. split; [by apply lookup_app_l_Some|].
  done.
Qed.

Lemma tagged_at_grows tid tref g g' h :
  vertices g `prefix_of` vertices g' →
  tagged_at tid tref g h → tagged_at tid tref g' h.
Proof.
  intros [k Hk] (x & Hx & Ht). exists x. rewrite Hk.
  split; [by apply lookup_app_l_Some|done].
Qed.

Lemma tagged_same_snapshot tid tref x y :
  tagged tid tref x → tagged tid tref y → same_snapshot x y.
Proof. intros [Hx1 Hx2] [Hy1 Hy2]. split; congruence. Qed.

Lemma snapshots_apart_vertices g vs :
  snapshots_apart g →
  snapshots_apart {| vertices := vertices g ++ vs; edges := edges g |}.
Proof.
  intros Hg. eapply Forall_impl; [exact Hg|]. intros e.
  apply edge_within_grows. simpl. by apply prefix_app_r.
Qed.

Lemma snapshots_apart_edges tid tref g es :
  snapshots_apart g →
  Forall (λ e, tagged_at tid tref g (e_out e) ∧ tagged_at tid tref g (e_in e))
    es →
  snapshots_apart {| vertices := vertices g; edges := edges g ++ es |}.
Proof.
  intros Hg Hes. apply Forall_app. split; [exact Hg|].
  eapply Forall_impl; [exact Hes|].
  intros e [(x & Hx & Htx) (y & Hy & Hty)]. exists x, y.
  split; [done|]. split; [done|]. by eapply tagged_same_snapshot.
Qed.

Lemma for_each_invariant {A} (I : Graph → Prop) (xs : list A)
    (body : A → M unit) :
  (∀ x g, I g → I (body x g).1) → ∀ g, I g → I (for_each xs body g).1.
Proof.
  intros Hbody. induction xs as [|x xs IH]; intros g Hg; [done|].
  simpl. unfold bind. specialize (Hbody x g Hg).
  destruct (body x g) as [g1 [e|[]]]; [done|]. by apply IH.
Qed.

Lemma bind_invariant {A B} (I : Graph → Prop) (m : M A) (k : A → M B) :
  (∀ g, I g → I (m g).1) → (∀ a g, I g → I (k a g).1) →
  ∀ g, I g → I (bind m k g).1.
Proof.
  intros Hm Hk g Hg. unfold bind. specialize (Hm g Hg).
  destruct (m g) as [g1 [e|a]]; [done|]. by apply Hk.
Qed.

Lemma tagged_at_last tid tref vs es x :
  tagged tid tref x →
  tagged_at tid tref {| vertices := vs ++ [x]; edges := es |} (length vs).
Proof.
  intros Hx. exists x. split; [|done]. simpl.
  by rewrite lookup_app_r, Nat.sub_diag.
Qed.

Lemma create_stream_managers_apart tid tref pp g :
  snapshots_apart g →
  snapshots_apart (_create_stream_managers tid tref pp g).1.
Proof.
  unfold _create_stream_managers. apply for_each_invariant.
  intros sm g1 Hg1. unfold bind, next, lift, to_vertex. simpl.
  destruct (container_index (sm_id sm)) as [e|c]; simpl.
  - by apply snapshots_apart_vertices.
  - apply (snapshots_apart_edges tid tref
             {| vertices := (vertices g1 ++ [_]) ++ [_]; edges := edges g1 |}).
    + rewrite <- app_assoc. by apply snapshots_apart_vertices.
    + constructor; [|done]. simpl. split.
      * eapply tagged_at_grows;
          [|apply (tagged_at_last tid tref (vertices g1) (edges g1))].
        -- simpl. by apply prefix_app_r.
        -- unfold tagged. split; prop_lookup.
      * apply tagged_at_last. unfold tagged. split; prop_lookup.
Qed.

Lemma instance_step_apart {D} (mk : string → D → Instance → InstanceInfo → Vertex)
    tid tref pp physical comps g :
  (∀ name data inst info, tagged tid tref (mk name data inst info)) →
  snapshots_apart g →
  snapshots_apart
    (instance_loop parse_instance_name mk tid tref pp physical comps g).1.
Proof.
  intros Hmk. unfold instance_loop. apply for_each_invariant.
  intros [name data] g1 Hg1. unfold component_body, bind at 1, lift at 1.
  simpl. destruct (Py.getitem physical name) as [e|toks]; [done|].
  revert g1 Hg1. apply for_each_invariant. intros tok g1 Hg1.
  unfold instance_body, bind, lift, next, to_traversal, to_vertex.
  destruct (parse_instance_name tok) as [e|inst]; [done|].
  destruct (Py.getitem (pp_instances pp) tok) as [e|info]; [done|]. simpl.
  destruct (matching _ _) as [|h rest] eqn:Hmatch; simpl.
  - by apply snapshots_apart_vertices.
  - apply (snapshots_apart_edges tid tref
             {| vertices := vertices g1 ++ [_]; edges := edges g1 |}).
    + by apply snapshots_apart_vertices.
    + constructor; [|done]. simpl. split.
      * by apply tagged_at_last.
      * assert (h ∈ matching (container_query tid tref (container inst))
                  {| vertices := vertices g1 ++ [mk name data inst info];
                     edges := edges g1 |}) as Hin
          by (rewrite Hmatch; by left).
        apply elem_of_matching in Hin as (k & Hk & Hq).
        exists k. split; [done|].
        by apply container_query_true in Hq as (_ & _ & ?).
Qed.

Lemma instances_of_tagged tid tref name g h :
  h ∈ instances_of tid tref name g →
  ∃ x, vertices g !! h = Some x ∧ tagged tid tref x ∧
       v_props x !! "component" = Some (VStr name).
Proof.
  intros (x & Hx & Ht)%elem_of_matching. exists x. split; [done|].
  unfold has, V in Ht. rewrite !andb_true_iff, !bool_decide_eq_true in Ht.
  by destruct Ht as [[[_ ?] ?] ?].
Qed.

(** X5.  [_create_logical_connections] connects instances of one snapshot
    only: each edge it adds leaves a vertex that carries the tags of the call
    and the source component of a declared stream, and enters a vertex that
    carries the tags of the call and the name of the bolt that declares the
    stream.  Vertices of another topology or another snapshot get no
    data-flow edge, whatever their component. *)
Theorem logical_connections_stay_in_snapshot tid tref lp g :
  ∃ de,
    _create_logical_connections tid tref lp g =
      ({| vertices := vertices g; edges := edges g ++ de |}, inr tt) ∧
    Forall (λ e,
      ∃ bolt_name stream x y,
        (bolt_name, stream) ∈ declared_streams lp ∧
        vertices g !! e_out e = Some x ∧
        vertices g !! e_in e = Some y ∧
        tagged tid tref x ∧ tagged tid tref y ∧
        v_props x !! "component" = Some (VStr (component_name stream)) ∧
        v_props y !! "component" = Some (VStr bolt_name)) de.
Proof.
  exists (declared_streams lp ≫= stream_edges tid tref g).
  split; [apply create_logical_connections_edges|].
  apply Forall_forall. intros e.
  rewrite list_elem_of_bind. intros ([bolt_name stream] & He & Hentry).
  destruct (stream_edges_cross_product tid tref g bolt_name stream)
    as (_ & _ & Hin).
  apply Hin in He as (s & d & Hs & Hd & ->).
  apply instances_of_tagged in Hs as (x & Hx & Htx & Hcx).
  apply instances_of_tagged in Hd as (y & Hy & Hty & Hcy).
  by exists bolt_name, stream, x, y.
Qed.

(** X6.  In a graph where every edge connects two vertices of the graph
    that carry the same tags, a build keeps it so, whatever its outcome: no
    edge it adds dangles, and none connects vertices of two snapshots. *)
Theorem build_keeps_snapshots_apart tid tref cluster environ g :
  snapshots_apart g →
  snapshots_apart (build tid tref cluster environ g).1.
Proof.
  unfold build_topology_graph. revert g.
  apply bind_invariant; [done|intros lp].
  apply bind_invariant; [done|intros pp].
  apply bind_invariant; [apply create_stream_managers_apart|intros _].
  apply bind_invariant.
  { intros g Hg. rewrite create_spouts_instance_loop.
    apply instance_step_apart; [|done].
    intros. unfold tagged. split; prop_lookup. }
  intros _. apply bind_invariant.
  { intros g Hg. rewrite create_bolts_instance_loop.
    apply instance_step_apart; [|done].
    intros. unfold tagged. split; prop_lookup. }
  intros _ g Hg. rewrite create_logical_connections_edges.
  apply (snapshots_apart_edges tid tref); [done|].
  apply Forall_forall. intros e.
  rewrite list_elem_of_bind. intros ([bolt_name stream] & He & _).
  destruct (stream_edges_cross_product tid tref g bolt_name stream)
    as (_ & _ & Hin).
  apply Hin in He as (s & d & Hs & Hd & ->).
  apply instances_of_tagged in Hs as (x & Hx & Htx & _).
  apply instances_of_tagged in Hd as (y & Hy & Hty & _).
  split; [by exists x|by exists y].
Qed.

(** ** What the vertices carry *)

Lemma create_stream_managers_turn_exact tid tref pp key sm rest c g :
  container_index (sm_id sm) = inr c →
  _create_stream_managers tid tref (with_stmgrs pp ((key, sm) :: rest)) g =
  _create_stream_managers tid tref (with_stmgrs pp rest)
    {| vertices :=
         vertices g ++
         [ {| v_label := "stream_manager";
              v_props := list_to_map
                [("id", VStr (sm_id sm)); ("host", sm_host sm);
                 ("port", sm_port sm); ("shell_port", sm_shell_port sm);
                 ("topology_id", VStr tid); ("topology_ref", VStr tref)] |};
           {| v_label := "container";
              v_props := list_to_map
                [("id", VInt c); ("topology_id", VStr tid);
                 ("topology_ref", VStr tref)] |} ];
       edges := edges g ++ [is_within_edge (length (vertices g))
                                           (length (vertices g) + 1)] |}.
Proof.
  intros Hc. unfold _create_stream_managers. simpl.
  unfold bind at 1 2 3 4, next, lift, to_vertex. rewrite Hc. simpl.
  rewrite <- app_assoc, length_app. simpl. reflexivity.
Qed.

(** X7.  On ids that all yield a container index, the vertex that
    [_create_stream_managers] writes for a stream manager carries its id,
    host, port and shell port and the two tags, and nothing else; the vertex
    of its container carries the container index as [id] and the two tags,
    and nothing else. *)
Theorem stream_manager_vertices_exact tid tref pp g :
  forallb decodable (Py.values (pp_stmgrs pp)) = true →
  ∃ g' dv de,
    _create_stream_managers tid tref pp g = (g', inr tt) ∧
    grows_by g g' dv de ∧
    ∀ i sm, Py.values (pp_stmgrs pp) !! i = Some sm →
      ∃ c,
        container_index (sm_id sm) = inr c ∧
        dv !! (2 * i)%nat =
          Some {| v_label := "stream_manager";
                  v_props := list_to_map
                    [("id", VStr (sm_id sm)); ("host", sm_host sm);
                     ("port", sm_port sm); ("shell_port", sm_shell_port sm);
                     ("topology_id", VStr tid); ("topology_ref", VStr tref)]
               |} ∧
        dv !! (2 * i + 1)%nat =
          Some {| v_label := "container";
                  v_props := list_to_map
                    [("id", VInt c); ("topology_id", VStr tid);
                     ("topology_ref", VStr tref)] |}.
Proof.
  intros Hdec. rewrite <- (with_stmgrs_same pp).
  change (pp_stmgrs (with_stmgrs pp (pp_stmgrs pp))) with (pp_stmgrs pp).
  revert Hdec. generalize (pp_stmgrs pp) as sms.
  intros sms. revert g. induction sms as [|[key sm] rest IH]; intros g Hdec.
  - exists g, [], []. split; [done|]. split; [apply grows_by_refl|].
    by intros i sm ?.
  - simpl in Hdec. apply andb_true_iff in Hdec as [Hsm Hrest].
    destruct (decodable_inr _ Hsm) as [c Hc].
    rewrite (create_stream_managers_turn_exact _ _ _ _ _ _ _ _ Hc).
    match goal with
    | |- context [_create_stream_managers _ _ _ ?g1] =>
        destruct (IH g1 Hrest) as (g' & dv & de & Hrun & [Hv He] & Hpos)
    end.
    simpl in Hv, He. rewrite <- app_assoc in Hv, He.
    eexists g', _, _. split; [exact Hrun|]. split; [by split|].
    intros [|i] sm' Hi.
    + simpl in Hi. injection Hi as <-. by exists c.
    + simpl in Hi. destruct (Hpos i sm' Hi) as (c' & ? & ? & ?).
      exists c'. replace (2 * S i)%nat with (S (S (2 * i))) by lia. done.
Qed.

(** X8.  When the components and instances are ready, the vertex that
    [_create_spouts] writes for an instance carries the decoded container
    and task, the component name, the stream manager of the instance, the
    type and the source of the spout from the logical plan and the two tags,
    and nothing else; the vertex that [_create_bolts] writes carries the same
    without the type and the source. *)
Theorem instance_vertices_exact tid tref pp lp g :
  (forallb (component_ready parse_instance_name tid tref pp (pp_spouts pp) g)
     (lp_spouts lp) = true →
   ∃ g' dv de,
     create_spouts tid tref pp lp g = (g', inr tt) ∧
     grows_by g g' dv de ∧
     ∀ i name data tok,
       assigned (pp_spouts pp) (lp_spouts lp) !! i = Some (name, data, tok) →
       ∃ inst info,
         parse_instance_name tok = inr inst ∧
         Py.getitem (pp_instances pp) tok = inr info ∧
         dv !! i =
           Some {| v_label := "spout";
                   v_props := list_to_map
                     [("container", VInt (container inst));
                      ("task_id", VInt (task_id inst));
                      ("component", VStr name);
                      ("stream_manager", VStr (stmgrId info));
                      ("spout_type", spout_type data);
                      ("spout_source", spout_source data);
                      ("topology_id", VStr tid);
                      ("topology_ref", VStr tref)] |}) ∧
  (forallb (component_ready parse_instance_name tid tref pp (pp_bolts pp) g)
     (lp_bolts lp) = true →
   ∃ g' dv de,
     create_bolts tid tref pp lp g = (g', inr tt) ∧
     grows_by g g' dv de ∧
     ∀ i name data tok,
       assigned (pp_bolts pp) (lp_bolts lp) !! i = Some (name, data, tok) →
       ∃ inst info,
         parse_instance_name tok = inr inst ∧
         Py.getitem (pp_instances pp) tok = inr info ∧
         dv !! i =
           Some {| v_label := "bolt";
                   v_props := list_to_map
                     [("container", VInt (container inst));
                      ("task_id", VInt (task_id inst));
                      ("component", VStr name);
                      ("stream_manager", VStr (stmgrId info));
                      ("topology_id", VStr tid);
                      ("topology_ref", VStr tref)] |}).
Proof.
  split; intros Hready.
  - destruct (components_ok (spout_vertex tid tref) tid tref pp (pp_spouts pp)
                g (lp_spouts lp) g Hready) as (dv & de & Hrun & Hw); [done|].
    eexists _, dv, de. rewrite create_spouts_instance_loop.
    split; [exact Hrun|]. split; [done|].
    intros i name data tok Hi. destruct Hw as (_ & _ & Hw).
    destruct (Hw _ _ _ _ Hi) as (inst & info & h & Hp & Hinfo & _ & Hx & _).
    exists inst, info. split; [done|]. split; [done|]. exact Hx.
  - destruct (components_ok (bolt_vertex tid tref) tid tref pp (pp_bolts pp)
                g (lp_bolts lp) g Hready) as (dv & de & Hrun & Hw); [done|].
    eexists _, dv, de. rewrite create_bolts_instance_loop.
    split; [exact Hrun|]. split; [done|].
    intros i name data tok Hi. destruct Hw as (_ & _ & Hw).
    destruct (Hw _ _ _ _ Hi) as (inst & info & h & Hp & Hinfo & _ & Hx & _).
    exists inst, info. split; [done|]. split; [done|]. exact Hx.
Qed.

(** ** Errors of the parser, and streams without instances *)

(** X9.  When [_create_spouts] or [_create_bolts] gets to an instance whose
    name [parse_instance_name] rejects, it stops with the error of the
    parser, before it looks the instance up in the instance map; it has
    written one vertex and one edge for each instance before it and nothing
    for this one. *)
Theorem parse_error_surfaces tid tref pp lp g :
  (∀ name data tok before e,
     reaches parse_instance_name tid tref pp (pp_spouts pp) g (lp_spouts lp)
       name data tok before →
     parse_instance_name tok = inl e →
     ∃ dv de,
       create_spouts tid tref pp lp g =
         ({| vertices := vertices g ++ dv; edges := edges g ++ de |}, inl e) ∧
       length dv = length before ∧ length de = length before) ∧
  (∀ name data tok before e,
     reaches parse_instance_name tid tref pp (pp_bolts pp) g (lp_bolts lp)
       name data tok before →
     parse_instance_name tok = inl e →
     ∃ dv de,
       create_bolts tid tref pp lp g =
         ({| vertices := vertices g ++ dv; edges := edges g ++ de |}, inl e) ∧
       length dv = length before ∧ length de = length before).
Proof.
  split.
  - intros name data tok before e
      (pre & post & tpre & tpost & Hcomps & Hpre & Hget & Htpre & ->) Hp.
    destruct (loop_stops_at_instance (spout_vertex tid tref) "spout"
                (λ _ _ _ _, eq_refl) ltac:(done) tid tref pp (pp_spouts pp)
                g pre name data post tpre tok tpost Hpre Hget Htpre)
      as (dv & de & (Hv & He & _) & Hstop & _).
    exists dv, de. rewrite create_spouts_instance_loop, Hcomps.
    split; [by apply Hstop|done].
  - intros name data tok before e
      (pre & post & tpre & tpost & Hcomps & Hpre & Hget & Htpre & ->) Hp.
    destruct (loop_stops_at_instance (bolt_vertex tid tref) "bolt"
                (λ _ _ _ _, eq_refl) ltac:(done) tid tref pp (pp_bolts pp)
                g pre name data post tpre tok tpost Hpre Hget Htpre)
      as (dv & de & (Hv & He & _) & Hstop & _).
    exists dv, de. rewrite create_bolts_instance_loop, Hcomps.
    split; [by apply Hstop|done].
Qed.

Lemma bind_all_nil {A B} (l : list A) (f : A → list B) :
  (∀ x, x ∈ l → f x = []) → l ≫= f = [].
Proof.
  induction l as [|x l IH]; intros Hf; [done|].
  rewrite bind_cons, Hf by (by left). apply IH. intros y Hy. apply Hf.
  by right.
Qed.

(** X10.  A declared stream whose source component, or whose bolt, has no
    instance vertex in the snapshot gets no edge and raises no error: when
    this is so for every declared stream, [_create_logical_connections]
    returns normally and leaves the graph as it found it.  Unlike the
    instance loops, the step does not fail on a component it does not find. *)
Theorem logical_connections_without_instances tid tref lp g :
  (∀ bolt_name stream,
     (bolt_name, stream) ∈ declared_streams lp →
     instances_of tid tref (component_name stream) g = [] ∨
     instances_of tid tref bolt_name g = []) →
  _create_logical_connections tid tref lp g = (g, inr tt).
Proof.
  intros Hnone. rewrite create_logical_connections_edges.
  rewrite bind_all_nil; [by rewrite add_edges_nil|].
  intros [bolt_name stream] Hin. unfold stream_edges. simpl.
  destruct (Hnone _ _ Hin) as [-> | ->]; [|done].
  by apply bind_all_nil.
Qed.

(** ** The build on plans that fit together *)

Lemma length_select t i vs :
  length (select t i vs) = length (filter (λ x, t x = true) vs).
Proof.
  revert i. induction vs as [|x vs IH]; intros i; simpl; [done|].
  destruct (t x) eqn:Htx.
  - rewrite filter_cons_True by done. simpl. by rewrite IH.
  - rewrite filter_cons_False by congruence. apply IH.
Qed.

Lemma length_bind_sum {A B} (f : A → list B) (l : list A) :
  length (l ≫= f) = sum_list_with (λ x, length (f x)) l.
Proof.
  induction l as [|x l IH]; [done|].
  rewrite bind_cons, length_app, IH. done.
Qed.

Lemma sum_list_with_ext {A} (f f' : A → nat) (l : list A) :
  (∀ x, x ∈ l → f x = f' x) → sum_list_with f l = sum_list_with f' l.
Proof.
  induction l as [|x l IH]; intros Hf; [done|]. simpl.
  rewrite Hf by (by left). rewrite IH; [done|].
  intros y Hy. apply Hf. by right.
Qed.

Lemma sum_list_with_scale {A} (f : A → nat) (c : nat) (l : list A) :
  sum_list_with (λ x, c * f x)%nat l = (c * sum_list_with f l)%nat.
Proof. induction l as [|x l IH]; simpl; [lia|]. rewrite IH. lia. Qed.

(** The instances of a component among the vertices an instance loop has
    written are those the plan assigns to it. *)
Lemma written_instances_of {D} (mk : string → D → Instance → InstanceInfo → Vertex)
    (t : Traversal) target tid tref pp g0 n work dv de i :
  (∀ name data inst info,
     t (mk name data inst info) = bool_decide (name = target)) →
  written parse_instance_name mk tid tref pp g0 n work dv de →
  length (select t i dv) = assigned_to target work.
Proof.
  intros Ht (Hv & _ & Hw). rewrite length_select. unfold assigned_to.
  assert (Forall2 (λ w x, ∃ inst info, x = mk w.1.1 w.1.2 inst info) work dv)
    as Hrel.
  { apply Forall2_same_length_lookup_2; [done|].
    intros j [[name data] tok] x Hj Hx.
    destruct (Hw _ _ _ _ Hj) as (inst & info & h & _ & _ & _ & Hx' & _).
    rewrite Hx in Hx'. injection Hx' as ->. by exists inst, info. }
  clear Hv Hw. induction Hrel as [|w x work dv (inst & info & ->) _ IH];
    [done|].
  destruct (decide (w.1.1 = target)) as [Heq|Hne].
  - rewrite !filter_cons_True; [simpl; by rewrite IH|done|].
    rewrite Ht. by apply bool_decide_eq_true.
  - rewrite !filter_cons_False; [done|done|].
    rewrite Ht. by rewrite bool_decide_eq_false_2.
Qed.

Lemma component_query_spout tid tref target name data inst info :
  (V |> has "topology_id" (VStr tid) |> has "topology_ref" (VStr tref)
     |> has "component" (VStr target))
    (spout_vertex tid tref name data inst info) = bool_decide (name = target).
Proof.
  unfold has, V. simpl. unfold spout_vertex, property, addV. simpl.
  repeat (first [rewrite lookup_insert_eq | rewrite lookup_insert_ne by done]).
  rewrite !bool_decide_eq_true_2 by done. simpl.
  destruct (decide (name = target)) as [->|Hne].
  - by rewrite !bool_decide_eq_true_2.
  - rewrite !bool_decide_eq_false_2; [done|done|congruence].
Qed.

Lemma component_query_bolt tid tref target name data inst info :
  (V |> has "topology_id" (VStr tid) |> has "topology_ref" (VStr tref)
     |> has "component" (VStr target))
    (bolt_vertex tid tref name data inst info) = bool_decide (name = target).
Proof.
  unfold has, V. simpl. unfold bolt_vertex, property, addV. simpl.
  repeat (first [rewrite lookup_insert_eq | rewrite lookup_insert_ne by done]).
  rewrite !bool_decide_eq_true_2 by done. simpl.
  destruct (decide (name = target)) as [->|Hne].
  - by rewrite !bool_decide_eq_true_2.
  - rewrite !bool_decide_eq_false_2; [done|done|congruence].
Qed.

(** The run of a build on plans that fit together, step by step. *)
Lemma build_run tid tref cluster environ lp pp g :
  get_logical_plan tracker_url cluster environ tid = inr lp →
  get_physical_plan tracker_url cluster environ tid = inr pp →
  plans_consistent parse_instance_name pp lp = true →
  ∃ dv1 de1 dv2 de2 dv3 de3,
    let g1 := {| vertices := vertices g ++ dv1; edges := edges g ++ de1 |} in
    let g2 := {| vertices := vertices g1 ++ dv2; edges := edges g1 ++ de2 |} in
    let g3 := {| vertices := vertices g2 ++ dv3; edges := edges g2 ++ de3 |} in
    build tid tref cluster environ g =
      (add_edges g3 (declared_streams lp ≫= stream_edges tid tref g3),
       inr tt) ∧
    length dv1 = (2 * length (pp_stmgrs pp))%nat ∧
    count_vertices "stream_manager" dv1 = length (pp_stmgrs pp) ∧
    count_vertices "container" dv1 = length (pp_stmgrs pp) ∧
    Forall (λ x, v_label x ∈ ["stream_manager"; "container"] ∧
                 v_props x !! "component" = None) dv1 ∧
    length de1 = length (pp_stmgrs pp) ∧
    Forall (λ e, e_label e = "is_within") de1 ∧
    written parse_instance_name (spout_vertex tid tref) tid tref pp g1
      (length (vertices g1)) (assigned (pp_spouts pp) (lp_spouts lp)) dv2 de2 ∧
    written parse_instance_name (bolt_vertex tid tref) tid tref pp g2
      (length (vertices g2)) (assigned (pp_bolts pp) (lp_bolts lp)) dv3 de3.
Proof.
  intros Hlp Hpp Hcons.
  apply andb_true_iff in Hcons as [[Hdec Hsp]%andb_true_iff Hbo].
  destruct (create_stream_managers_ok tid tref pp (pp_stmgrs pp) Hdec)
    as (dv1 & Hdv1 & Hcs & Hck & _ & _ & Hruns).
  destruct (Hruns g) as (de1 & Hrun1 & Hde1 & Hedges).
  rewrite with_stmgrs_same in Hrun1.
  destruct (instance_steps_ok tid tref pp lp _
              (create_stream_managers_containers _ _ _ _ _ Hrun1) Hsp Hbo)
    as (dv2 & de2 & dv3 & de3 & Hrun2 & Hrun3 & Hw2 & Hw3).
  exists dv1, de1, dv2, de2, dv3, de3. simpl.
  split; [|split; [done|]; split; [done|]; split; [done|]; split;
             [|split; [done|]; split; [|done]]].
  - unfold build_topology_graph.
    rewrite (bind_lift_inr _ _ _ _ Hlp), (bind_lift_inr _ _ _ _ Hpp).
    rewrite (bind_inr _ _ _ _ _ Hrun1), (bind_inr _ _ _ _ _ Hrun2),
      (bind_inr _ _ _ _ _ Hrun3).
    by rewrite create_logical_connections_edges.
  - destruct (create_stream_managers_kind tid tref pp g)
      as (dv & de & [Hv _] & Hkind & _).
    rewrite Hrun1 in Hv. simpl in Hv. apply app_inv_head in Hv. by subst dv.
  - apply Forall_lookup. intros i e Hi.
    rewrite Hedges in Hi by (rewrite <- Hde1; by eapply lookup_lt_Some).
    by injection Hi as <-.
Qed.

Lemma count_vertices_all l vs :
  Forall (λ x, v_label x = l) vs → count_vertices l vs = length vs.
Proof.
  unfold count_vertices. induction 1 as [|x vs Hx _ IH]; [done|].
  rewrite filter_cons_True by done. simpl. by rewrite IH.
Qed.

Lemma build_totals tid tref cluster environ lp pp g :
  get_logical_plan tracker_url cluster environ tid = inr lp →
  get_physical_plan tracker_url cluster environ tid = inr pp →
  plans_consistent parse_instance_name pp lp = true →
  let B := length (pp_stmgrs pp) in
  let spouts := assigned (pp_spouts pp) (lp_spouts lp) in
  let bolts := assigned (pp_bolts pp) (lp_bolts lp) in
  ∃ g' dv de,
    build tid tref cluster environ g = (g', inr tt) ∧
    grows_by g g' dv de ∧
    count_vertices "stream_manager" dv = B ∧
    count_vertices "container" dv = B ∧
    count_vertices "spout" dv = length spouts ∧
    count_vertices "bolt" dv = length bolts ∧
    length dv = (2 * B + length spouts + length bolts)%nat ∧
    count_edges "is_within" de = (B + length spouts + length bolts)%nat ∧
    count_edges "logically_connected" de =
      sum_list_with
        (λ entry,
           length (instances_of tid tref (component_name entry.2) g') *
           length (instances_of tid tref entry.1 g'))%nat
        (declared_streams lp) ∧
    ∀ name,
      length (instances_of tid tref name g') =
      (length (instances_of tid tref name g)
       + assigned_to name spouts + assigned_to name bolts)%nat.
Proof.
  intros Hlp Hpp Hcons B spouts bolts.
  destruct (build_run tid tref cluster environ lp pp g Hlp Hpp Hcons)
    as (dv1 & de1 & dv2 & de2 & dv3 & de3 & Hrun & Hdv1 & Hcs & Hck & Hkind &
        Hde1 & Hwithin1 & Hw2 & Hw3).
  simpl in Hrun, Hw2, Hw3.
  set (g3 := {| vertices := ((vertices g ++ dv1) ++ dv2) ++ dv3;
                edges := ((edges g ++ de1) ++ de2) ++ de3 |}) in *.
  set (L := declared_streams lp ≫= stream_edges tid tref g3) in *.
  pose proof (wrote_labels (spout_vertex tid tref) "spout" (λ _ _ _ _, eq_refl)
                tid tref pp _ _ _ _ _ Hw2) as Hl2.
  pose proof (wrote_labels (bolt_vertex tid tref) "bolt" (λ _ _ _ _, eq_refl)
                tid tref pp _ _ _ _ _ Hw3) as Hl3.
  pose proof (wrote_edges (spout_vertex tid tref) tid tref pp _ _ _ _ _ Hw2)
    as He2.
  pose proof (wrote_edges (bolt_vertex tid tref) tid tref pp _ _ _ _ _ Hw3)
    as He3.
  assert (length dv2 = length spouts ∧ length de2 = length spouts)
    as [Hdv2 Hde2] by (destruct Hw2 as (? & ? & _); done).
  assert (length dv3 = length bolts ∧ length de3 = length bolts)
    as [Hdv3 Hde3] by (destruct Hw3 as (? & ? & _); done).
  exists (add_edges g3 L), (dv1 ++ dv2 ++ dv3), (de1 ++ de2 ++ de3 ++ L).
  split; [exact Hrun|]. split.
  { split; simpl; by rewrite <- !app_assoc. }
  split; [|split; [|split; [|split; [|split; [|split; [|split]]]]]].
  - rewrite !count_vertices_app, Hcs.
    rewrite !count_vertices_none; [lia| |];
      (eapply Forall_impl; [eassumption|]); by intros x ->.
  - rewrite !count_vertices_app, Hck.
    rewrite !count_vertices_none; [lia| |];
      (eapply Forall_impl; [eassumption|]); by intros x ->.
  - rewrite !count_vertices_app, (count_vertices_all _ dv2) by done.
    rewrite !count_vertices_none; [lia| |].
    + eapply Forall_impl; [exact Hl3|]. by intros x ->.
    + eapply Forall_impl; [exact Hkind|]. intros x [Hx _] Heq.
      rewrite Heq in Hx.
      repeat (apply elem_of_cons in Hx as [Hx|Hx]; [done|]).
      by apply elem_of_nil in Hx.
  - rewrite !count_vertices_app, (count_vertices_all _ dv3) by done.
    rewrite !count_vertices_none; [lia| |].
    + eapply Forall_impl; [exact Hl2|]. by intros x ->.
    + eapply Forall_impl; [exact Hkind|]. intros x [Hx _] Heq.
      rewrite Heq in Hx.
      repeat (apply elem_of_cons in Hx as [Hx|Hx]; [done|]).
      by apply elem_of_nil in Hx.
  - rewrite !length_app. lia.
  - rewrite !count_edges_app.
    rewrite (count_edges_all _ de1) by done.
    rewrite (count_edges_all _ de2)
      by (eapply Forall_impl; [exact He2|]; by intros e [? _]).
    rewrite (count_edges_all _ de3)
      by (eapply Forall_impl; [exact He3|]; by intros e [? _]).
    rewrite (count_edges_other _ L); [lia|].
    eapply Forall_impl; [apply stream_edges_labels|]. by intros e ->.
  - rewrite !count_edges_app.
    rewrite (count_edges_other _ de1)
      by (eapply Forall_impl; [exact Hwithin1|]; by intros e ->).
    rewrite (count_edges_other _ de2)
      by (eapply Forall_impl; [exact He2|]; by intros e [-> _]).
    rewrite (count_edges_other _ de3)
      by (eapply Forall_impl; [exact He3|]; by intros e [-> _]).
    rewrite (count_edges_all _ L) by apply stream_edges_labels.
    unfold L. rewrite length_bind_sum. simpl.
    apply sum_list_with_ext. intros [bolt_name stream] _.
    by destruct (stream_edges_cross_product tid tref g3 bolt_name stream)
      as (-> & _).
  - intros name. unfold instances_of, matching. simpl.
    rewrite !select_app, !length_app.
    rewrite (select_no_component _ _ _ _ dv1)
      by (eapply Forall_impl; [exact Hkind|]; by intros x [_ ?]).
    rewrite (written_instances_of (spout_vertex tid tref) _ name
               _ _ _ _ _ _ _ _ _ (component_query_spout tid tref name) Hw2).
    rewrite (written_instances_of (bolt_vertex tid tref) _ name
               _ _ _ _ _ _ _ _ _ (component_query_bolt tid tref name) Hw3).
    unfold spouts, bolts. simpl. lia.
Qed.

Lemma instances_of_fresh tid tref name g :
  Forall (λ x, ¬ tagged tid tref x) (vertices g) →
  instances_of tid tref name g = [].
Proof.
  intros Hg. unfold instances_of, matching. apply select_none.
  eapply Forall_impl; [exact Hg|]. intros x Hx.
  destruct (has _ _ _ x) eqn:Ht; [|done]. exfalso. apply Hx.
  unfold has, V in Ht. rewrite !andb_true_iff, !bool_decide_eq_true in Ht.
  by destruct Ht as [[[_ ?] ?] _].
Qed.

(** X11.  On plans that fit together a build returns normally, from any
    graph, and adds one [stream_manager] and one [container] vertex per
    stream manager of the physical plan, one [spout] vertex per instance of a
    spout component, one [bolt] vertex per instance of a bolt component and
    no other vertex; one [is_within] edge per stream manager and per
    instance; and, for each declared stream, as many [logically_connected]
    edges as there are pairs of a source and a destination instance in the
    graph it leaves. *)
Theorem build_counts tid tref cluster environ lp pp g :
  get_logical_plan tracker_url cluster environ tid = inr lp →
  get_physical_plan tracker_url cluster environ tid = inr pp →
  plans_consistent parse_instance_name pp lp = true →
  let B := length (pp_stmgrs pp) in
  let spouts := assigned (pp_spouts pp) (lp_spouts lp) in
  let bolts := assigned (pp_bolts pp) (lp_bolts lp) in
  ∃ g' dv de,
    build tid tref cluster environ g = (g', inr tt) ∧
    grows_by g g' dv de ∧
    count_vertices "stream_manager" dv = B ∧
    count_vertices "container" dv = B ∧
    count_vertices "spout" dv = length spouts ∧
    count_vertices "bolt" dv = length bolts ∧
    length dv = (2 * B + length spouts + length bolts)%nat ∧
    count_edges "is_within" de = (B + length spouts + length bolts)%nat ∧
    count_edges "logically_connected" de =
      sum_list_with
        (λ entry,
           length (instances_of tid tref (component_name entry.2) g') *
           length (instances_of tid tref entry.1 g'))%nat
        (declared_streams lp).
Proof.
  intros Hlp Hpp Hcons B spouts bolts.
  destruct (build_totals tid tref cluster environ lp pp g Hlp Hpp Hcons)
    as (g' & dv & de & Hrun & Hg & H1 & H2 & H3 & H4 & H5 & H6 & H7 & _).
  by exists g', dv, de.
Qed.

(** X12.  On plans that fit together, a build adds to the instance vertices
    that [_create_logical_connections] finds for a component exactly the
    instances that the plans assign to it.  Into a graph without vertex of
    the snapshot, the build so adds, for each declared stream, as many
    data-flow edges as the product of the number of instances assigned to
    the source component and to the bolt. *)
Theorem data_flow_edges_from_plans tid tref cluster environ lp pp g :
  get_logical_plan tracker_url cluster environ tid = inr lp →
  get_physical_plan tracker_url cluster environ tid = inr pp →
  plans_consistent parse_instance_name pp lp = true →
  let N := λ name,
    (assigned_to name (assigned (pp_spouts pp) (lp_spouts lp))
     + assigned_to name (assigned (pp_bolts pp) (lp_bolts lp)))%nat in
  ∃ g' dv de,
    build tid tref cluster environ g = (g', inr tt) ∧
    grows_by g g' dv de ∧
    (∀ name,
       length (instances_of tid tref name g') =
       (length (instances_of tid tref name g) + N name)%nat) ∧
    (Forall (λ x, ¬ tagged tid tref x) (vertices g) →
     count_edges "logically_connected" de =
     sum_list_with (λ entry, N (component_name entry.2) * N entry.1)%nat
       (declared_streams lp)).
Proof.
  intros Hlp Hpp Hcons N.
  destruct (build_totals tid tref cluster environ lp pp g Hlp Hpp Hcons)
    as (g' & dv & de & Hrun & Hg & _ & _ & _ & _ & _ & _ & Hcount & Hinst).
  exists g', dv, de. split; [done|]. split; [done|]. split.
  - intros name. rewrite Hinst. unfold N. lia.
  - intros Hfresh. rewrite Hcount. apply sum_list_with_ext.
    intros [bolt_name stream] _. simpl.
    rewrite !Hinst, !(instances_of_fresh _ _ _ _ Hfresh). unfold N. simpl.
    lia.
Qed.

(** X13.  On plans that fit together and from a graph without vertex of the
    snapshot, a second build with the same arguments adds four times as many
    data-flow edges as the first: its queries return the instance vertices
    of both builds, as sources and as destinations. *)
Theorem rebuild_quadruples_data_flow tid tref cluster environ lp pp g :
  get_logical_plan tracker_url cluster environ tid = inr lp →
  get_physical_plan tracker_url cluster environ tid = inr pp →
  plans_consistent parse_instance_name pp lp = true →
  Forall (λ x, ¬ tagged tid tref x) (vertices g) →
  ∃ g1 g2 dv1 de1 dv2 de2,
    build tid tref cluster environ g = (g1, inr tt) ∧
    build tid tref cluster environ g1 = (g2, inr tt) ∧
    grows_by g g1 dv1 de1 ∧
    grows_by g1 g2 dv2 de2 ∧
    count_edges "logically_connected" de2 =
    (4 * count_edges "logically_connected" de1)%nat.
Proof.
  intros Hlp Hpp Hcons Hfresh.
  destruct (build_totals tid tref cluster environ lp pp g Hlp Hpp Hcons)
    as (g1 & dv1 & de1 & Hrun1 & Hg1 & _ & _ & _ & _ & _ & _ & Hcount1 & Hinst1).
  destruct (build_totals tid tref cluster environ lp pp g1 Hlp Hpp Hcons)
    as (g2 & dv2 & de2 & Hrun2 & Hg2 & _ & _ & _ & _ & _ & _ & Hcount2 & Hinst2).
  exists g1, g2, dv1, de1, dv2, de2. do 4 (split; [done|]).
  rewrite Hcount1, Hcount2, <- sum_list_with_scale.
  apply sum_list_with_ext. intros [bolt_name stream] _. simpl.
  rewrite !Hinst2, !Hinst1, !(instances_of_fresh _ _ _ _ Hfresh). simpl. lia.
Qed.

End BuilderFacts.

(** * The end-to-end scenario *)

(** C2, as stated, fails in the end-to-end scenario: the build tags its five
    vertices, and none of its six edges. *)
Lemma scenario_edges_not_tagged :
  ¬ ∃ dv de,
      grows_by empty_graph (Scenario.build "topo" "ref1" empty_graph).1 dv de ∧
      Forall (tagged "topo" "ref1") dv ∧
      Forall (λ e, e_props e !! "topology_id" = Some (VStr "topo") ∧
                   e_props e !! "topology_ref" = Some (VStr "ref1")) de.
Proof.
  intros (dv & de & [_ He] & _ & Hde).
  assert (∃ e, e ∈ edges (Scenario.build "topo" "ref1" empty_graph).1 ∧
               e_props e !! "topology_id" = None) as (e & Hin & Hnone).
  { eexists. split; [|shelve]. vm_compute. left. Unshelve. reflexivity. }
  rewrite He in Hin. simpl in Hin.
  rewrite Forall_forall in Hde. destruct (Hde _ Hin) as [Hsome _].
  congruence.
Qed.

Lemma snapshots_disjoint_witness :
  "ref1" ≠ "ref2" ∧
  let g1 := (Scenario.build "topo" "ref1" empty_graph).1 in
  let g2 := (Scenario.build "topo" "ref2" g1).1 in
  (7 ∈ matching (V |> has "topology_ref" (VStr "ref2")) g2 →
   ¬ (length (vertices empty_graph) ≤ 7 < length (vertices g1)))%nat.
Proof.
  split; [done|].
  exact (proj2 (proj2 (snapshots_disjoint Scenario.parse_instance_name
    Scenario.get_logical_plan Scenario.get_physical_plan "tracker:8888"
    "topo" "ref1" "ref2" "cluster" "prod" "cluster" "prod" empty_graph V 7%nat
    ltac:(done)))).
Defined.

Lemma create_stream_managers_counts_witness :
  forallb decodable (Py.values (pp_stmgrs Scenario.physical_plan)) = true ∧
  ∃ g' dv de,
    _create_stream_managers "topo" "ref1" Scenario.physical_plan empty_graph =
      (g', inr tt) ∧
    grows_by empty_graph g' dv de ∧
    length dv = 2%nat ∧ length de = 1%nat.
Proof.
  split; [reflexivity|].
  destruct (create_stream_managers_counts "topo" "ref1" Scenario.physical_plan
              empty_graph eq_refl)
    as (g' & dv & de & Hrun & Hg & Hdv & Hde & _).
  by exists g', dv, de.
Defined.

(** C4, as stated, fails when the physical plan lists a component that the
    logical plan does not name.  The instance of [S9] is in the physical
    plan, its name parses, the instance map has it and the build writes its
    container vertex; the build returns normally, and no vertex corresponds
    to that instance: two [spout] vertices stand for three spout
    instances. *)
Lemma unnamed_component_instance_skipped :
  let pp := Scenario.physical_plan_extra in
  let run := build_topology_graph Scenario.parse_instance_name
               Scenario.get_logical_plan Scenario.get_physical_plan_extra
               "tracker:8888" "topo" "ref1" "cluster" "prod" empty_graph in
  "container_1_S9_9" ∈ pp_spouts pp ≫= snd ∧
  length (pp_spouts pp ≫= snd) = 3%nat ∧
  Scenario.parse_instance_name "container_1_S9_9" =
    inr {| container := 1; task_id := 9 |} ∧
  Py.getitem (pp_instances pp) "container_1_S9_9" =
    inr {| stmgrId := "stmgr-1" |} ∧
  run.2 = inr tt ∧
  matching (container_query "topo" "ref1" 1) run.1 ≠ [] ∧
  count_vertices "spout" (vertices run.1) = 2%nat ∧
  ¬ ∃ x, x ∈ vertices run.1 ∧
         instance_vertex "spout" "topo" "ref1" "S9"
           {| container := 1; task_id := 9 |} {| stmgrId := "stmgr-1" |} x.
Proof.
  intros pp run.
  split; [simpl; right; right; left|].
  split; [reflexivity|]. split; [reflexivity|]. split; [reflexivity|].
  split; [reflexivity|]. split; [by vm_compute|]. split; [reflexivity|].
  intros (x & Hin & _ & _ & _ & Hcomp & _).
  assert (Forall (λ x, v_props x !! "component" ≠ Some (VStr "S9"))
            (vertices run.1)) as Hall.
  { vm_compute. repeat constructor; discriminate. }
  rewrite Forall_forall in Hall. exact (Hall x Hin Hcomp).
Qed.

(** * Malformed plans *)



(** * Witnesses *)

Lemma instances_created_witness :
  forallb (component_ready Scenario.parse_instance_name "topo" "ref1"
             Scenario.physical_plan (pp_spouts Scenario.physical_plan)
             Scenario.with_containers)
    (lp_spouts Scenario.logical_plan) = true ∧
  (∃ g',
     _create_spouts Scenario.parse_instance_name "topo" "ref1"
       Scenario.physical_plan Scenario.logical_plan Scenario.with_containers =
     (g', inr tt) ∧
     instances_written Scenario.parse_instance_name "spout" "topo" "ref1"
       Scenario.physical_plan Scenario.with_containers g'
       (assigned (pp_spouts Scenario.physical_plan)
          (lp_spouts Scenario.logical_plan))) ∧
  NoDup (Py.keys (pp_spouts Scenario.physical_plan_extra)) ∧
  ("S9", ["container_1_S9_9"]) ∈ pp_spouts Scenario.physical_plan_extra ∧
  "container_1_S9_9" ∈ ["container_1_S9_9"] ∧
  ((∃ data, ("S9", data, "container_1_S9_9") ∈
            assigned (pp_spouts Scenario.physical_plan_extra)
              (lp_spouts Scenario.logical_plan)) ↔
   "S9" ∈ Py.keys (lp_spouts Scenario.logical_plan)).
Proof.
  assert (forallb (component_ready Scenario.parse_instance_name "topo" "ref1"
             Scenario.physical_plan (pp_spouts Scenario.physical_plan)
             Scenario.with_containers)
    (lp_spouts Scenario.logical_plan) = true) as Hready
    by (vm_compute; reflexivity).
  assert (NoDup (Py.keys (pp_spouts Scenario.physical_plan_extra))) as Hnd.
  { simpl. apply NoDup_cons. split.
    - intros Hin%list_elem_of_singleton. discriminate Hin.
    - apply NoDup_singleton. }
  assert (("S9", ["container_1_S9_9"]) ∈
          pp_spouts Scenario.physical_plan_extra) as Hin
    by (simpl; right; left).
  assert ("container_1_S9_9" ∈ ["container_1_S9_9"]) as Htok by left.
  split; [exact Hready|]. split.
  { exact (proj1 (instances_created Scenario.parse_instance_name
                    "topo" "ref1" Scenario.physical_plan
                    Scenario.logical_plan Scenario.with_containers) Hready). }
  split; [exact Hnd|]. split; [exact Hin|]. split; [exact Htok|].
  destruct (instances_created Scenario.parse_instance_name "topo" "ref1"
              Scenario.physical_plan_extra Scenario.logical_plan
              Scenario.with_containers) as (_ & _ & Hnamed & _).
  exact (Hnamed "S9" ["container_1_S9_9"] "container_1_S9_9" Hnd Hin Htok).
Defined.

Lemma errors_surface_witness :
  reaches Scenario.parse_instance_name "topo" "ref1" Scenario.physical_plan
    (pp_spouts Scenario.physical_plan) empty_graph
    (lp_spouts Scenario.logical_plan) "S1"
    {| spout_type := VStr "default"; spout_source := VStr "NA" |}
    "container_1_S1_1" [] ∧
  ∃ dv de x,
    _create_spouts Scenario.parse_instance_name "topo" "ref1"
      Scenario.physical_plan Scenario.logical_plan empty_graph =
    ({| vertices := [] ++ dv ++ [x]; edges := [] ++ de |}, inl LookupError) ∧
    length dv = 0%nat ∧ length de = 0%nat.
Proof.
  assert (reaches Scenario.parse_instance_name "topo" "ref1"
            Scenario.physical_plan (pp_spouts Scenario.physical_plan)
            empty_graph (lp_spouts Scenario.logical_plan) "S1"
            {| spout_type := VStr "default"; spout_source := VStr "NA" |}
            "container_1_S1_1" []) as Hreach.
  { exists [], [], [], ["container_1_S1_2"]. by repeat split. }
  split; [exact Hreach|].
  destruct (errors_surface Scenario.parse_instance_name
              Scenario.get_logical_plan Scenario.get_physical_plan
              "tracker:8888" "topo" "ref1" "cluster" "prod" empty_graph)
    as (_ & _ & _ & Hlookup & _).
  destruct (Hlookup Scenario.physical_plan Scenario.logical_plan "S1"
              {| spout_type := VStr "default"; spout_source := VStr "NA" |}
              "container_1_S1_1" []
              {| container := 1; task_id := 1 |} {| stmgrId := "stmgr-1" |}
              Hreach eq_refl eq_refl eq_refl)
    as (dv & de & x & Hrun & Hdv & Hde & _).
  by exists dv, de, x.
Defined.

Lemma rebuild_duplicates_witness :
  plans_consistent Scenario.parse_instance_name Scenario.physical_plan
    Scenario.logical_plan = true ∧
  ∃ dv,
    count_vertices "stream_manager" dv = 1%nat ∧
    count_vertices "container" dv = 1%nat ∧
    ∃ g1 g2 de1 de2,
      Scenario.build "topo" "ref1" empty_graph = (g1, inr tt) ∧
      Scenario.build "topo" "ref1" g1 = (g2, inr tt) ∧
      grows_by empty_graph g1 dv de1 ∧
      grows_by g1 g2 dv de2.
Proof.
  assert (plans_consistent Scenario.parse_instance_name Scenario.physical_plan
            Scenario.logical_plan = true) as Hcons by (vm_compute; reflexivity).
  split; [exact Hcons|].
  destruct (rebuild_duplicates Scenario.parse_instance_name
              Scenario.get_logical_plan Scenario.get_physical_plan
              "tracker:8888" "topo" "ref1" "cluster" "prod"
              Scenario.logical_plan Scenario.physical_plan
              eq_refl eq_refl Hcons)
    as (dv & Hcs & Hck & _ & _ & Htwice).
  exists dv. split; [exact Hcs|]. split; [exact Hck|].
  destruct (Htwice empty_graph)
    as (g1 & g2 & de1 & de2 & Hrun1 & Hrun2 & Hg1 & Hg2 & _).
  by exists g1, g2, de1, de2.
Defined.

Lemma missing_plan_entries_witness :
  reaches_component Scenario.parse_instance_name "topo" "ref1"
    Malformed.physical_plan (pp_spouts Malformed.physical_plan) empty_graph
    (lp_spouts Scenario.logical_plan) "S1" [] ∧
  ("S1" ∉ Py.keys (pp_spouts Malformed.physical_plan)) ∧
  ∃ dv de,
    _create_spouts Scenario.parse_instance_name "topo" "ref1"
      Malformed.physical_plan Scenario.logical_plan empty_graph =
    ({| vertices := [] ++ dv; edges := [] ++ de |}, inl (KeyError "S1")) ∧
    length dv = 0%nat ∧ length de = 0%nat.
Proof.
  assert (reaches_component Scenario.parse_instance_name "topo" "ref1"
            Malformed.physical_plan (pp_spouts Malformed.physical_plan)
            empty_graph (lp_spouts Scenario.logical_plan) "S1" []) as Hreach.
  { exists [], {| spout_type := VStr "default"; spout_source := VStr "NA" |},
      []. by repeat split. }
  assert ("S1" ∉ Py.keys (pp_spouts Malformed.physical_plan)) as Habs
    by apply not_elem_of_nil.
  split; [exact Hreach|]. split; [exact Habs|].
  destruct (missing_plan_entries Scenario.parse_instance_name
              Scenario.get_logical_plan Scenario.get_physical_plan
              "tracker:8888" "topo" "ref1" Malformed.physical_plan
              Scenario.logical_plan empty_graph)
    as (Hcomponent & _).
  exact (Hcomponent "S1" [] Hreach Habs).
Defined.

(** * The scenario, run *)

(** One build of the scenario: one stream manager, one container, two
    spouts and one bolt, four containment edges and two data-flow edges. *)
Example scenario_build :
  let g := (Scenario.build "topo" "ref1" empty_graph).1 in
  (Scenario.build "topo" "ref1" empty_graph).2 = inr tt ∧
  count_vertices "stream_manager" (vertices g) = 1%nat ∧
  count_vertices "container" (vertices g) = 1%nat ∧
  count_vertices "spout" (vertices g) = 2%nat ∧
  count_vertices "bolt" (vertices g) = 1%nat ∧
  count_edges "is_within" (edges g) = 4%nat ∧
  count_edges "logically_connected" (edges g) = 2%nat.
Proof. vm_compute. by repeat split. Qed.

(** A second build doubles the vertices and the containment edges.  Its
    queries for the instances of a component also return the vertices of the
    first build, so it adds eight data-flow edges where the first added
    two. *)
Example scenario_rebuild :
  let g1 := (Scenario.build "topo" "ref1" empty_graph).1 in
  let g2 := (Scenario.build "topo" "ref1" g1).1 in
  length (vertices g2) = 10%nat ∧
  count_edges "is_within" (edges g2) = 8%nat ∧
  count_edges "logically_connected" (edges g2) = 10%nat.
Proof. vm_compute. by repeat split. Qed.

(** * Witnesses of the further properties *)

Lemma container_index_nonneg_witness :
  container_index "stmgr-3" = inr 3 ∧ 0 ≤ 3 ∧ occurs "-" "stmgr-3" = true.
Proof.
  split; [reflexivity|]. exact (container_index_nonneg "stmgr-3" 3 eq_refl).
Defined.

Lemma init_reads_configuration_witness :
  ("heron.tracker.url" ∈ Py.keys Scenario.configuration) ∧
  ("caladrius.graph.db.url" ∈ Py.keys Scenario.configuration) ∧
  ∃ self, __init__ Scenario.configuration = inr self.
Proof.
  assert ("heron.tracker.url" ∈ Py.keys Scenario.configuration) as H1
    by (simpl; left).
  assert ("caladrius.graph.db.url" ∈ Py.keys Scenario.configuration) as H2
    by (simpl; right; left).
  split; [exact H1|]. split; [exact H2|].
  destruct (init_reads_configuration Scenario.configuration)
    as (_ & _ & Hboth & _).
  exact (Hboth H1 H2).
Defined.

Lemma unnamed_components_ignored_witness :
  pp_instances Scenario.physical_plan_more =
  pp_instances Scenario.physical_plan ∧
  _create_spouts Scenario.parse_instance_name "topo" "ref1"
    Scenario.physical_plan_more Scenario.logical_plan Scenario.with_containers =
  _create_spouts Scenario.parse_instance_name "topo" "ref1"
    Scenario.physical_plan Scenario.logical_plan Scenario.with_containers.
Proof.
  split; [reflexivity|].
  apply (proj1 (unnamed_components_ignored Scenario.parse_instance_name
                  "topo" "ref1" Scenario.physical_plan
                  Scenario.physical_plan_more Scenario.logical_plan
                  Scenario.with_containers eq_refl)).
  intros name Hin. simpl in Hin.
  apply list_elem_of_singleton in Hin. subst name. reflexivity.
Defined.

Lemma build_keeps_snapshots_apart_witness :
  snapshots_apart empty_graph ∧
  snapshots_apart (Scenario.build "topo" "ref1" empty_graph).1.
Proof.
  assert (snapshots_apart empty_graph) as Hempty by constructor.
  split; [exact Hempty|].
  exact (build_keeps_snapshots_apart Scenario.parse_instance_name
           Scenario.get_logical_plan Scenario.get_physical_plan
           "tracker:8888" "topo" "ref1" "cluster" "prod" empty_graph Hempty).
Defined.

Lemma stream_manager_vertices_exact_witness :
  forallb decodable (Py.values (pp_stmgrs Scenario.physical_plan)) = true ∧
  ∃ g' dv de,
    _create_stream_managers "topo" "ref1" Scenario.physical_plan empty_graph =
      (g', inr tt) ∧
    grows_by empty_graph g' dv de.
Proof.
  split; [reflexivity|].
  destruct (stream_manager_vertices_exact "topo" "ref1" Scenario.physical_plan
              empty_graph eq_refl) as (g' & dv & de & Hrun & Hg & _).
  by exists g', dv, de.
Defined.

Lemma instance_vertices_exact_witness :
  forallb (component_ready Scenario.parse_instance_name "topo" "ref1"
             Scenario.physical_plan (pp_spouts Scenario.physical_plan)
             Scenario.with_containers)
    (lp_spouts Scenario.logical_plan) = true ∧
  ∃ g' dv de,
    _create_spouts Scenario.parse_instance_name "topo" "ref1"
      Scenario.physical_plan Scenario.logical_plan Scenario.with_containers =
    (g', inr tt) ∧
    grows_by Scenario.with_containers g' dv de.
Proof.
  assert (forallb (component_ready Scenario.parse_instance_name "topo" "ref1"
             Scenario.physical_plan (pp_spouts Scenario.physical_plan)
             Scenario.with_containers)
    (lp_spouts Scenario.logical_plan) = true) as Hready
    by (vm_compute; reflexivity).
  split; [exact Hready|].
  destruct (proj1 (instance_vertices_exact Scenario.parse_instance_name
                     "topo" "ref1" Scenario.physical_plan
                     Scenario.logical_plan Scenario.with_containers) Hready)
    as (g' & dv & de & Hrun & Hg & _).
  by exists g', dv, de.
Defined.

Lemma parse_error_surfaces_witness :
  reaches Scenario.parse_instance_name "topo" "ref1" Malformed.unparsable_plan
    (pp_spouts Malformed.unparsable_plan) empty_graph
    (lp_spouts Scenario.logical_plan) "S1"
    {| spout_type := VStr "default"; spout_source := VStr "NA" |}
    "bogus" [] ∧
  Scenario.parse_instance_name "bogus" = inl (ParseError "bogus") ∧
  ∃ dv de,
    _create_spouts Scenario.parse_instance_name "topo" "ref1"
      Malformed.unparsable_plan Scenario.logical_plan empty_graph =
    ({| vertices := [] ++ dv; edges := [] ++ de |},
     inl (ParseError "bogus")) ∧
    length dv = 0%nat ∧ length de = 0%nat.
Proof.
  assert (reaches Scenario.parse_instance_name "topo" "ref1"
            Malformed.unparsable_plan (pp_spouts Malformed.unparsable_plan)
            empty_graph (lp_spouts Scenario.logical_plan) "S1"
            {| spout_type := VStr "default"; spout_source := VStr "NA" |}
            "bogus" []) as Hreach.
  { exists [], [], [], []. by repeat split. }
  split; [exact Hreach|]. split; [reflexivity|].
  exact (proj1 (parse_error_surfaces Scenario.parse_instance_name
                  "topo" "ref1" Malformed.unparsable_plan
                  Scenario.logical_plan empty_graph)
           "S1" _ "bogus" [] (ParseError "bogus") Hreach eq_refl).
Defined.

Lemma logical_connections_without_instances_witness :
  (∀ bolt_name stream,
     (bolt_name, stream) ∈ declared_streams Scenario.logical_plan →
     instances_of "topo" "ref1" (component_name stream) empty_graph = [] ∨
     instances_of "topo" "ref1" bolt_name empty_graph = []) ∧
  _create_logical_connections "topo" "ref1" Scenario.logical_plan empty_graph =
  (empty_graph, inr tt).
Proof.
  assert (∀ bolt_name stream,
     (bolt_name, stream) ∈ declared_streams Scenario.logical_plan →
     instances_of "topo" "ref1" (component_name stream) empty_graph = [] ∨
     instances_of "topo" "ref1" bolt_name empty_graph = []) as Hnone
    by (intros; by left).
  split; [exact Hnone|].
  exact (logical_connections_without_instances "topo" "ref1"
           Scenario.logical_plan empty_graph Hnone).
Defined.

Lemma build_counts_witness :
  plans_consistent Scenario.parse_instance_name Scenario.physical_plan
    Scenario.logical_plan = true ∧
  ∃ g' dv de,
    Scenario.build "topo" "ref1" empty_graph = (g', inr tt) ∧
    grows_by empty_graph g' dv de ∧
    count_vertices "spout" dv = 2%nat ∧
    count_vertices "bolt" dv = 1%nat ∧
    count_edges "is_within" de = 4%nat.
Proof.
  assert (plans_consistent Scenario.parse_instance_name Scenario.physical_plan
            Scenario.logical_plan = true) as Hcons by (vm_compute; reflexivity).
  split; [exact Hcons|].
  destruct (build_counts Scenario.parse_instance_name
              Scenario.get_logical_plan Scenario.get_physical_plan
              "tracker:8888" "topo" "ref1" "cluster" "prod"
              Scenario.logical_plan Scenario.physical_plan empty_graph
              eq_refl eq_refl Hcons)
    as (g' & dv & de & Hrun & Hg & _ & _ & Hs & Hb & _ & Hw & _).
  by exists g', dv, de.
Defined.

Lemma data_flow_edges_from_plans_witness :
  plans_consistent Scenario.parse_instance_name Scenario.physical_plan
    Scenario.logical_plan = true ∧
  Forall (λ x, ¬ tagged "topo" "ref1" x) (vertices empty_graph) ∧
  ∃ g' dv de,
    Scenario.build "topo" "ref1" empty_graph = (g', inr tt) ∧
    grows_by empty_graph g' dv de ∧
    count_edges "logically_connected" de = 2%nat.
Proof.
  assert (plans_consistent Scenario.parse_instance_name Scenario.physical_plan
            Scenario.logical_plan = true) as Hcons by (vm_compute; reflexivity).
  assert (Forall (λ x, ¬ tagged "topo" "ref1" x) (vertices empty_graph))
    as Hfresh by constructor.
  split; [exact Hcons|]. split; [exact Hfresh|].
  destruct (data_flow_edges_from_plans Scenario.parse_instance_name
              Scenario.get_logical_plan Scenario.get_physical_plan
              "tracker:8888" "topo" "ref1" "cluster" "prod"
              Scenario.logical_plan Scenario.physical_plan empty_graph
              eq_refl eq_refl Hcons)
    as (g' & dv & de & Hrun & Hg & _ & Hcount).
  exists g', dv, de. split; [exact Hrun|]. split; [exact Hg|].
  exact (Hcount Hfresh).
Defined.

Lemma rebuild_quadruples_data_flow_witness :
  plans_consistent Scenario.parse_instance_name Scenario.physical_plan
    Scenario.logical_plan = true ∧
  Forall (λ x, ¬ tagged "topo" "ref1" x) (vertices empty_graph) ∧
  ∃ g1 g2 dv1 de1 dv2 de2,
    Scenario.build "topo" "ref1" empty_graph = (g1, inr tt) ∧
    Scenario.build "topo" "ref1" g1 = (g2, inr tt) ∧
    grows_by empty_graph g1 dv1 de1 ∧
    grows_by g1 g2 dv2 de2 ∧
    count_edges "logically_connected" de2 =
    (4 * count_edges "logically_connected" de1)%nat.
Proof.
  assert (plans_consistent Scenario.parse_instance_name Scenario.physical_plan
            Scenario.logical_plan = true) as Hcons by (vm_compute; reflexivity).
  assert (Forall (λ x, ¬ tagged "topo" "ref1" x) (vertices empty_graph))
    as Hfresh by constructor.
  split; [exact Hcons|]. split; [exact Hfresh|].
  exact (rebuild_quadruples_data_flow Scenario.parse_instance_name
           Scenario.get_logical_plan Scenario.get_physical_plan
           "tracker:8888" "topo" "ref1" "cluster" "prod"
           Scenario.logical_plan Scenario.physical_plan empty_graph
           eq_refl eq_refl Hcons Hfresh).
Defined.
